(** * The session registry of the chat service (src/test2.js, class ChatService)

    A shallow embedding of [ChatService]: the [sessions] Map, the session
    objects it refers to, and the operations that create, look up, extend,
    clear, delete and evict sessions.

    Modelling choices, all taken from the source:
    - [this.sessions] is a JS [Map] keyed by the session id, a string: a
      [gmap string loc].  Its values are references to session objects, so
      the model keeps a store of objects ([heap]) and the Map holds
      locations: [getSession] returns the reference, and the callers mutate
      the object behind it.
    - [new Date().toISOString()] is a time stamp with millisecond precision;
      [new Date(s)] reads it back.  A time stamp is the number of
      milliseconds since the epoch, a [Z]; the subtraction [now - lastActivity]
      is the subtraction of [Z].
    - [new Date()], [uuidv4()] and [generativeModel.startChat] are answered by
      the environment.  The n-th clock reading is [clock n], the n-th uuid is
      [uuidv4 n], and the n-th chat started has handle [n]; the world counts
      how many of each were consumed.
    - [session.chatSession.sendMessage(message)], followed by
      [result.response] and [response.text()], is the call to the provider:
      it either yields the text or throws.  Its outcome is an argument of the
      model ([reply]).
    - A JS exception is [Throw msg], with the message of the [Error].
    - The ids are strings, as the routes pass them.
    - A [gmap] does not keep the insertion order of the Map.  The one method
      whose result depends on it is [getAllSessions]: its list is modelled in
      the order in which the [gmap] enumerates, and what is proved of it does
      not depend on the order.
    - The routes are functions from the fields they read of the request to
      the status and the JSON body they answer; a field of the body is [None]
      when the request lacks it. *)

From stdpp Require Import base option list gmap strings fin_maps pretty.
From Stdlib Require Import ZArith Lia.

Local Open Scope Z_scope.
Local Open Scope string_scope.

(** ** Data model *)

Definition loc := nat.

Module Exchange.
Record t := mk {
  id : string;
  user : string;
  assistant : string;
  timestamp : Z
}.
End Exchange.

Module Session.
Record t := mk {
  id : string;
  chatSession : nat;
  history : list Exchange.t;
  createdAt : Z;
  lastActivity : Z
}.

Definition set_history (h : list Exchange.t) (s : t) : t :=
  mk (id s) (chatSession s) h (createdAt s) (lastActivity s).
Definition set_chatSession (c : nat) (s : t) : t :=
  mk (id s) c (history s) (createdAt s) (lastActivity s).
Definition set_lastActivity (z : Z) (s : t) : t :=
  mk (id s) (chatSession s) (history s) (createdAt s) z.
(** [session.history.push(exchange)] *)
Definition push (e : Exchange.t) (s : t) : t :=
  set_history (history s ++ [e]) s.
End Session.

Record World := mkWorld {
  sessions : gmap string loc;   (* chatService.sessions *)
  heap : list Session.t;        (* the session objects, by allocation index *)
  dates : nat;                  (* how many [new Date()] were evaluated *)
  uuids : nat;                  (* how many [uuidv4()] were evaluated *)
  chats : nat                   (* how many [startChat] were evaluated *)
}.

(** [new ChatService()] *)
Definition init : World := mkWorld ∅ [] 0 0 0.

Definition with_sessions (m : gmap string loc) (w : World) : World :=
  mkWorld m (heap w) (dates w) (uuids w) (chats w).
Definition with_heap (h : list Session.t) (w : World) : World :=
  mkWorld (sessions w) h (dates w) (uuids w) (chats w).

(** ** Computations: state and exceptions *)

Inductive completion (A : Type) : Type :=
| Normal (a : A)
| Throw (message : string).
Arguments Normal {A} a.
Arguments Throw {A} message.

Definition JS (A : Type) : Type := World → completion A * World.

Definition ret {A} (a : A) : JS A := λ w, (Normal a, w).
Definition throw {A} (message : string) : JS A := λ w, (Throw message, w).
Definition bind {A B} (c : JS A) (k : A → JS B) : JS B :=
  λ w, match c w with
       | (Normal a, w') => k a w'
       | (Throw e, w') => (Throw e, w')
       end.
(** [try { c } catch (error) { h(error.message) }] *)
Definition try_catch {A} (c : JS A) (h : string → JS A) : JS A :=
  λ w, match c w with
       | (Normal a, w') => (Normal a, w')
       | (Throw e, w') => h e w'
       end.

Notation "x <- c ;; k" := (bind c (λ x, k))
  (at level 100, c at next level, right associativity).
Notation "c ;;; k" := (bind c (λ _, k))
  (at level 100, right associativity).

(** A JS value is falsy when it is [null], [undefined] or the empty string
    (the ids of this model are strings). *)
Definition truthy (s : string) : bool :=
  match s with EmptyString => false | _ => true end.

(** The provider's answer to one message: the generated text, or the message
    of the error thrown by the call. *)
Inductive reply := Text (text : string) | Failure (message : string).

Module SendResult.
Record t := mk { response : string; exchangeId : string; sessionId : string }.
End SendResult.

Module HistoryResult.
Record t := mk {
  sessionId : string;
  createdAt : Z;
  lastActivity : Z;
  messageCount : nat;
  history : list Exchange.t
}.
End HistoryResult.

Module DeleteResult.
Record t := mk { sessionId : string; deletedAt : Z }.
End DeleteResult.

Module ClearResult.
Record t := mk { sessionId : string; clearedAt : Z }.
End ClearResult.

Module CleanupResult.
Record t := mk { cleaned : nat; remaining : nat }.
End CleanupResult.

Module Summary.
Record t := mk {
  id : string;
  createdAt : Z;
  lastActivity : Z;
  messageCount : nat
}.
End Summary.

Module SessionsResult.
Record t := mk { sessions : list Summary.t; count : nat }.
End SessionsResult.

(** [s.startsWith(sub)] and [s.includes(sub)] *)
Fixpoint startsWith (s sub : string) : bool :=
  match sub, s with
  | EmptyString, _ => true
  | String _ _, EmptyString => false
  | String a sub', String b s' => Ascii.eqb a b && startsWith s' sub'
  end.

Fixpoint includes (s sub : string) : bool :=
  startsWith s sub
  || match s with
     | EmptyString => false
     | String _ s' => includes s' sub
     end.

(** The JSON bodies of the answers.  [success] is [false] in [Rejected] and
    [Failed] and [true] in the others. *)
Inductive Body :=
| Health (timestamp : Z) (sessions : nat)
| SessionCreated (sessionId : string) (createdAt : Z)
| MessageSent (result : SendResult.t) (timestamp : Z)
| SessionHistory (result : HistoryResult.t)
| SessionDeleted (result : DeleteResult.t)
| SessionCleared (result : ClearResult.t)
| SessionList (result : SessionsResult.t) (timestamp : Z)
| CleanedUp (result : CleanupResult.t) (timestamp : Z)
| Rejected (error : string)
| Failed (error : string) (timestamp : Z).

Record Response := mkResponse { status : nat; body : Body }.

(** [!x] is false: the field is there and is not the empty string. *)
Definition given (x : option string) : bool :=
  match x with
  | Some s => truthy s
  | None => false
  end.

(** [error.message.includes('Session not found') ? 404 : 500] *)
Definition statusCode (message : string) : nat :=
  if includes message "Session not found" then 404%nat else 500%nat.

Section ChatService.

(** The environment: the clock and the uuid generator. *)
Variable clock : nat → Z.
Variable uuidv4 : nat → string.

(** *** Primitive effects *)

(** [new Date()] (and [.toISOString()]) *)
Definition newDate : JS Z :=
  λ w, (Normal (clock (dates w)),
        mkWorld (sessions w) (heap w) (S (dates w)) (uuids w) (chats w)).

(** [uuidv4()] *)
Definition newUuid : JS string :=
  λ w, (Normal (uuidv4 (uuids w)),
        mkWorld (sessions w) (heap w) (dates w) (S (uuids w)) (chats w)).

(** [this.generativeModel.startChat({ history: [] })]: a new chat object. *)
Definition startChat : JS nat :=
  λ w, (Normal (chats w),
        mkWorld (sessions w) (heap w) (dates w) (uuids w) (S (chats w))).

(** An object literal [{ ... }]: a new object, at a new location. *)
Definition alloc (s : Session.t) : JS loc :=
  λ w, (Normal (length (heap w)), with_heap (heap w ++ [s]) w).

(** Reading the object behind a reference.  References of JS are never
    dangling; the [Throw] keeps the function total (see [wf]). *)
Definition deref (l : loc) : JS Session.t :=
  λ w, match heap w !! l with
       | Some s => (Normal s, w)
       | None => (Throw "TypeError", w)
       end.

(** Writing fields of the object behind a reference. *)
Definition update (l : loc) (f : Session.t → Session.t) : JS unit :=
  λ w, match heap w !! l with
       | Some s => (Normal tt, with_heap (<[l := f s]> (heap w)) w)
       | None => (Throw "TypeError", w)
       end.

(** [this.sessions.get(k)], [.set(k, v)], [.delete(k)], [.size] *)
Definition Map_get (k : string) : JS (option loc) :=
  λ w, (Normal (sessions w !! k), w).
Definition Map_set (k : string) (v : loc) : JS unit :=
  λ w, (Normal tt, with_sessions (<[k := v]> (sessions w)) w).
Definition Map_delete (k : string) : JS unit :=
  λ w, (Normal tt, with_sessions (delete k (sessions w)) w).
Definition Map_size : JS nat :=
  λ w, (Normal (size (sessions w)), w).
Definition Map_entries : JS (list (string * loc)) :=
  λ w, (Normal (map_to_list (sessions w)), w).

(** *** The methods of ChatService *)

Definition createSession (sessionId : option string) : JS loc :=
  id <- match sessionId with
        | Some s => if truthy s then ret s else newUuid
        | None => newUuid
        end ;;
  try_catch
    (chatSession <- startChat ;;
     createdAt <- newDate ;;
     lastActivity <- newDate ;;
     session <- alloc (Session.mk id chatSession [] createdAt lastActivity) ;;
     Map_set id session ;;;
     ret session)
    (λ e, throw ("Failed to create chat session: " ++ e)).

Definition getSession (sessionId : string) : JS loc :=
  session <- Map_get sessionId ;;
  match session with
  | None => throw "Session not found"
  | Some session => ret session
  end.

(** [sendMessage], awaited to its end with nothing else running in between
    (the steps of the asynchronous function are [task_step] below). *)
Definition sendMessage (r : reply) (sessionId message : string)
  : JS SendResult.t :=
  try_catch
    (session <- getSession sessionId ;;
     text <- match r with
             | Text text => ret text
             | Failure e => throw e
             end ;;
     id <- newUuid ;;
     timestamp <- newDate ;;
     update session (Session.push (Exchange.mk id message text timestamp)) ;;;
     lastActivity <- newDate ;;
     update session (Session.set_lastActivity lastActivity) ;;;
     s <- deref session ;;
     ret (SendResult.mk text id (Session.id s)))
    (λ e, throw ("Failed to send message: " ++ e)).

Definition getSessionHistory (sessionId : string) : JS HistoryResult.t :=
  try_catch
    (session <- getSession sessionId ;;
     s <- deref session ;;
     ret (HistoryResult.mk (Session.id s) (Session.createdAt s)
            (Session.lastActivity s) (length (Session.history s))
            (Session.history s)))
    (λ e, throw ("Failed to get session history: " ++ e)).

Definition deleteSession (sessionId : string) : JS DeleteResult.t :=
  try_catch
    (session <- getSession sessionId ;;
     Map_delete sessionId ;;;
     deletedAt <- newDate ;;
     ret (DeleteResult.mk sessionId deletedAt))
    (λ e, throw ("Failed to delete session: " ++ e)).

Definition clearSessionHistory (sessionId : string) : JS ClearResult.t :=
  try_catch
    (session <- getSession sessionId ;;
     update session (Session.set_history []) ;;;
     chatSession <- startChat ;;
     update session (Session.set_chatSession chatSession) ;;;
     lastActivity <- newDate ;;
     update session (Session.set_lastActivity lastActivity) ;;;
     clearedAt <- newDate ;;
     ret (ClearResult.mk sessionId clearedAt))
    (λ e, throw ("Failed to clear session history: " ++ e)).

(** [this.sessions.values()], in the order of the [gmap]. *)
Definition Map_values : JS (list loc) :=
  λ w, (Normal ((map_to_list (sessions w)).*2), w).

(** [.map(session => ({ id, createdAt, lastActivity, messageCount }))] *)
Fixpoint summarize (values : list loc) : JS (list Summary.t) :=
  match values with
  | [] => ret []
  | session :: rest =>
      s <- deref session ;;
      summaries <- summarize rest ;;
      ret (Summary.mk (Session.id s) (Session.createdAt s)
             (Session.lastActivity s) (length (Session.history s))
           :: summaries)
  end.

Definition getAllSessions : JS SessionsResult.t :=
  values <- Map_values ;;
  sessions <- summarize values ;;
  ret (SessionsResult.mk sessions (length sessions)).

(** The body of [for (const [sessionId, session] of this.sessions.entries())].
    The loop deletes only the entry it is visiting, so the live iterator of
    the Map visits the entries that were there when the loop began. *)
Fixpoint cleanup_loop (now maxAge : Z) (entries : list (string * loc))
    (cleaned : nat) : JS nat :=
  match entries with
  | [] => ret cleaned
  | (sessionId, session) :: rest =>
      s <- deref session ;;
      let lastActivity := Session.lastActivity s in
      if bool_decide (now - lastActivity > maxAge) then
        Map_delete sessionId ;;;
        cleanup_loop now maxAge rest (S cleaned)
      else cleanup_loop now maxAge rest cleaned
  end.

(** [maxAge] is [None] when the caller passes nothing ([undefined]): the
    default of 24 hours applies. *)
Definition cleanupInactiveSessions (maxAge : option Z)
  : JS CleanupResult.t :=
  let maxAge := default (24 * 60 * 60 * 1000) maxAge in
  now <- newDate ;;
  entries <- Map_entries ;;
  cleaned <- cleanup_loop now maxAge entries 0 ;;
  remaining <- Map_size ;;
  ret (CleanupResult.mk cleaned remaining).

(** [sendMessage] called once per input, each call awaited before the next;
    an input is the message and the text the provider answers to it. *)
Fixpoint sendMessages (sessionId : string) (inputs : list (string * string))
  : JS (list SendResult.t) :=
  match inputs with
  | [] => ret []
  | (message, text) :: rest =>
      r <- sendMessage (Text text) sessionId message ;;
      rs <- sendMessages sessionId rest ;;
      ret (r :: rs)
  end.

(** *** [sendMessage] as the asynchronous function it is

    A call runs to the first [await]; the function is resumed when the
    awaited promise settles, runs to the next [await] or to its end, and
    nothing else runs in between (one thread, run to completion).  The
    function has two [await]s, so a call is made of three steps. *)
Inductive Task :=
| Called (sessionId message : string)
    (* not started *)
| AwaitSend (session : loc) (message : string)
    (* at [await session.chatSession.sendMessage(message)] *)
| AwaitResponse (session : loc) (message text : string)
    (* at [await result.response] *)
| Settled (result : completion SendResult.t).
    (* the promise of the call is resolved or rejected *)

Definition task_step (r : reply) (t : Task) : World → Task * World :=
  λ w,
  match t with
  | Called sessionId message =>
      match try_catch (getSession sessionId)
              (λ e, throw ("Failed to send message: " ++ e)) w with
      | (Normal session, w') => (AwaitSend session message, w')
      | (Throw e, w') => (Settled (Throw e), w')
      end
  | AwaitSend session message =>
      match r with
      | Text text => (AwaitResponse session message text, w)
      | Failure e => (Settled (Throw ("Failed to send message: " ++ e)), w)
      end
  | AwaitResponse session message text =>
      let '(c, w') :=
        try_catch
          (id <- newUuid ;;
           timestamp <- newDate ;;
           update session
             (Session.push (Exchange.mk id message text timestamp)) ;;;
           lastActivity <- newDate ;;
           update session (Session.set_lastActivity lastActivity) ;;;
           s <- deref session ;;
           ret (SendResult.mk text id (Session.id s)))
          (λ e, throw ("Failed to send message: " ++ e)) w in
      (Settled c, w')
  | Settled c => (Settled c, w)
  end.

(** Two calls in flight, [A] and [B]; the event loop resumes one of them at
    a time, in the order of the schedule. *)
Inductive turn := A | B.

Record Config := mkConfig { taskA : Task; taskB : Task; world : World }.

Definition turn_step (rA rB : reply) (c : Config) (t : turn) : Config :=
  match t with
  | A => let '(tA, w) := task_step rA (taskA c) (world c) in
         mkConfig tA (taskB c) w
  | B => let '(tB, w) := task_step rB (taskB c) (world c) in
         mkConfig (taskA c) tB w
  end.

Definition run (rA rB : reply) (schedule : list turn) (c : Config) : Config :=
  foldl (turn_step rA rB) c schedule.

(** *** The service over time

    A request to the service, each served to its end before the next, and the
    world after a list of requests served from [new ChatService()]. *)
Inductive call :=
| CreateSession (sessionId : option string)
| SendMessage (r : reply) (sessionId message : string)
| GetSessionHistory (sessionId : string)
| DeleteSession (sessionId : string)
| ClearSessionHistory (sessionId : string)
| GetAllSessions
| CleanupInactiveSessions (maxAge : option Z).

Definition serve (w : World) (c : call) : World :=
  match c with
  | CreateSession sessionId => snd (createSession sessionId w)
  | SendMessage r sessionId message => snd (sendMessage r sessionId message w)
  | GetSessionHistory sessionId => snd (getSessionHistory sessionId w)
  | DeleteSession sessionId => snd (deleteSession sessionId w)
  | ClearSessionHistory sessionId => snd (clearSessionHistory sessionId w)
  | GetAllSessions => snd (getAllSessions w)
  | CleanupInactiveSessions maxAge => snd (cleanupInactiveSessions maxAge w)
  end.

Definition served (calls : list call) : World := foldl serve init calls.

(** A call of [sendMessage] during whose first [await] the requests [calls]
    are served: the call starts, the requests are served, and the call is
    resumed twice, to its end. *)
Definition send_around (r : reply) (sessionId message : string)
    (calls : list call) (w : World) : Task * World :=
  let '(t1, w1) := task_step r (Called sessionId message) w in
  let w2 := foldl serve w1 calls in
  let '(t2, w3) := task_step r t1 w2 in
  task_step r t2 w3.

(** *** The routes

    Every handler is a [try] whose [catch] answers the error. *)

(** [app.get('/health')] *)
Definition get_health : JS Response :=
  timestamp <- newDate ;;
  sessions <- Map_size ;;
  ret (mkResponse 200 (Health timestamp sessions)).

(** [app.post('/api/chat/session')] *)
Definition post_session (sessionId : option string) : JS Response :=
  try_catch
    (session <- createSession sessionId ;;
     s <- deref session ;;
     ret (mkResponse 201
            (SessionCreated (Session.id s) (Session.createdAt s))))
    (λ e, timestamp <- newDate ;; ret (mkResponse 500 (Failed e timestamp))).

(** [app.post('/api/chat/message')] *)
Definition post_message (r : reply) (sessionId message : option string)
  : JS Response :=
  try_catch
    (if negb (given sessionId) || negb (given message) then
       ret (mkResponse 400 (Rejected "sessionId and message are required"))
     else
       result <- sendMessage r (default "" sessionId) (default "" message) ;;
       timestamp <- newDate ;;
       ret (mkResponse 200 (MessageSent result timestamp)))
    (λ e, let code := statusCode e in
          timestamp <- newDate ;; ret (mkResponse code (Failed e timestamp))).

(** [app.get('/api/chat/session/:sessionId/history')] *)
Definition get_history (sessionId : string) : JS Response :=
  try_catch
    (history <- getSessionHistory sessionId ;;
     ret (mkResponse 200 (SessionHistory history)))
    (λ e, let code := statusCode e in
          timestamp <- newDate ;; ret (mkResponse code (Failed e timestamp))).

(** [app.delete('/api/chat/session/:sessionId')] *)
Definition delete_session (sessionId : string) : JS Response :=
  try_catch
    (result <- deleteSession sessionId ;;
     ret (mkResponse 200 (SessionDeleted result)))
    (λ e, let code := statusCode e in
          timestamp <- newDate ;; ret (mkResponse code (Failed e timestamp))).

(** [app.put('/api/chat/session/:sessionId/clear')] *)
Definition put_clear (sessionId : string) : JS Response :=
  try_catch
    (result <- clearSessionHistory sessionId ;;
     ret (mkResponse 200 (SessionCleared result)))
    (λ e, let code := statusCode e in
          timestamp <- newDate ;; ret (mkResponse code (Failed e timestamp))).

(** [app.get('/api/chat/sessions')] *)
Definition get_sessions : JS Response :=
  try_catch
    (result <- getAllSessions ;;
     timestamp <- newDate ;;
     ret (mkResponse 200 (SessionList result timestamp)))
    (λ e, timestamp <- newDate ;; ret (mkResponse 500 (Failed e timestamp))).

(** [app.post('/api/chat/cleanup')] *)
Definition post_cleanup (maxAge : option Z) : JS Response :=
  try_catch
    (result <- cleanupInactiveSessions maxAge ;;
     timestamp <- newDate ;;
     ret (mkResponse 200 (CleanedUp result timestamp)))
    (λ e, timestamp <- newDate ;; ret (mkResponse 500 (Failed e timestamp))).



End ChatService.

(** ** Well-formed worlds

    What holds of every world the service can be in: the Map refers to
    objects that exist, under the id they carry, the ids are truthy, and the
    chat handles in use were handed out by [startChat]. *)
Record wf (w : World) : Prop := mkWf {
  wf_live : ∀ k l, sessions w !! k = Some l → is_Some (heap w !! l);
  wf_key : ∀ k l s, sessions w !! k = Some l → heap w !! l = Some s →
                    Session.id s = k;
  wf_truthy : ∀ k l, sessions w !! k = Some l → truthy k = true;
  wf_chats : ∀ l s, heap w !! l = Some s → (Session.chatSession s < chats w)%nat
}.

(** Whether the session behind [l] is older than [maxAge] at time [now]. *)
Definition stale (now maxAge : Z) (h : list Session.t) (l : loc) : bool :=
  match h !! l with
  | Some s => bool_decide (now - Session.lastActivity s > maxAge)
  | None => false
  end.

(** The pairs (user, assistant) of a history, in order. *)
Definition turns (h : list Exchange.t) : list (string * string) :=
  map (λ e, (Exchange.user e, Exchange.assistant e)) h.

(** The session after one exchange was appended at the two clock readings
    [t] (the exchange) and [t'] (the activity). *)
Definition appended (eid message text : string) (t t' : Z) (s : Session.t)
  : Session.t :=
  Session.set_lastActivity t'
    (Session.push (Exchange.mk eid message text t) s).

(** How far a call of [sendMessage] has run: the number of its steps taken. *)
Definition phase (t : Task) : nat :=
  match t with
  | Called _ _ => 0
  | AwaitSend _ _ => 1
  | AwaitResponse _ _ _ => 2
  | Settled _ => 3
  end.

Definition is_turn (t x : turn) : bool :=
  match t, x with
  | A, A | B, B => true
  | _, _ => false
  end.

(** How many times the schedule gives the turn to [t]. *)
Fixpoint resumptions (t : turn) (schedule : list turn) : nat :=
  match schedule with
  | [] => 0
  | x :: rest => ((if is_turn t x then 1 else 0) + resumptions t rest)%nat
  end.

(** A call of [sendMessage sessionId message], answered [text] by the
    provider, on the session object [l]: what each of its states holds. *)
Definition task_inv (sessionId : string) (l : loc) (message text : string)
    (t : Task) : Prop :=
  match t with
  | Called i m => i = sessionId ∧ m = message
  | AwaitSend l' m => l' = l ∧ m = message
  | AwaitResponse l' m x => l' = l ∧ m = message ∧ x = text
  | Settled c => ∃ r, c = Normal r ∧ SendResult.response r = text
  end.

(** What the call has added to the history so far. *)
Definition produced (message text : string) (t : Task)
  : list (string * string) :=
  match t with
  | Settled _ => [(message, text)]
  | _ => []
  end.

(** The invariant of two calls on the session [sessionId], whose object [l]
    had the history [h] when they began. *)
Definition two_calls_inv (sessionId : string) (l : loc)
    (h : list Exchange.t) (m : gmap string loc)
    (mA tA mB tB : string) (c : Config) : Prop :=
  task_inv sessionId l mA tA (taskA c)
  ∧ task_inv sessionId l mB tB (taskB c)
  ∧ sessions (world c) = m
  ∧ ∃ s' new,
      heap (world c) !! l = Some s'
      ∧ Session.history s' = (h ++ new)%list
      ∧ (turns new = (produced mA tA (taskA c) ++ produced mB tB (taskB c))%list
         ∨ turns new
           = (produced mB tB (taskB c) ++ produced mA tA (taskA c))%list).

(** The session that the Map holds under [k], if any. *)
Definition registered (w : World) (k : string) : option Session.t :=
  match sessions w !! k with
  | Some l => heap w !! l
  | None => None
  end.

(** *** Concrete runs

    A clock that advances by one second per reading, uuids numbered from 0,
    and the worlds of the scenarios: "s1" created; then "hi" sent and
    answered "hello"; then "s2" created. *)
Definition clock0 (n : nat) : Z := 1000 * Z.of_nat n.
Definition uuid0 (n : nat) : string := "uuid-" +:+ pretty n.

Definition w_s1 : World :=
  snd (createSession clock0 uuid0 (Some "s1") init).
Definition w_hi : World :=
  snd (sendMessage clock0 uuid0 (Text "hello") "s1" "hi" w_s1).
Definition w_two : World :=
  snd (createSession clock0 uuid0 (Some "s2") w_hi).

(** The scenario of the duplicate: "dup" created, one exchange, then "dup"
    created again. *)
Definition w_dup : World :=
  snd (sendMessage clock0 uuid0 (Text "hello") "dup" "hi"
         (snd (createSession clock0 uuid0 (Some "dup") init))).
Definition w_dup_again : World :=
  snd (createSession clock0 uuid0 (Some "dup") w_dup).

(** The session objects of these worlds. *)
Definition s1_new : Session.t := Session.mk "s1" 0 [] 0 1000.
Definition s1_hi : Session.t :=
  Session.mk "s1" 0 [Exchange.mk "uuid-0" "hi" "hello" 2000] 0 3000.
Definition s2_new : Session.t := Session.mk "s2" 1 [] 4000 5000.
Definition dup_hi : Session.t :=
  Session.mk "dup" 0 [Exchange.mk "uuid-0" "hi" "hello" 2000] 0 3000.
Definition dup_new : Session.t := Session.mk "dup" 1 [] 4000 5000.

(** The summary that [getAllSessions] makes of a session. *)
Definition summary (s : Session.t) : Summary.t :=
  Summary.mk (Session.id s) (Session.createdAt s) (Session.lastActivity s)
    (length (Session.history s)).

(** The time stamps of a session are in order: created, then each exchange
    in the order of the history, then the last activity. *)
Record in_order (s : Session.t) : Prop := mkInOrder {
  created_first : (Session.createdAt s ≤ Session.lastActivity s)%Z;
  exchanges_between : ∀ i e, Session.history s !! i = Some e →
    (Session.createdAt s ≤ Exchange.timestamp e)%Z
    ∧ (Exchange.timestamp e ≤ Session.lastActivity s)%Z;
  exchanges_sorted : ∀ i j ei ej, (i ≤ j)%nat →
    Session.history s !! i = Some ei → Session.history s !! j = Some ej →
    (Exchange.timestamp ei ≤ Exchange.timestamp ej)%Z
}.

(** Every session object is in order, and no reading of the clock still to
    come is earlier than its last activity. *)
Definition timed (clock : nat → Z) (w : World) : Prop :=
  ∀ l s, heap w !! l = Some s →
    in_order s
    ∧ ∀ d, (dates w ≤ d)%nat → (Session.lastActivity s ≤ clock d)%Z.

Section Facts.

Variable clock : nat → Z.
Variable uuidv4 : nat → string.

Ltac js :=
  unfold sendMessage, getSessionHistory, deleteSession, clearSessionHistory,
    createSession, task_step, getSession, try_catch, bind, ret, throw,
    Map_get, Map_set, Map_delete, Map_size, Map_entries, newDate, newUuid,
    startChat, alloc, with_heap, with_sessions; simpl.

Lemma getSession_found w sessionId l :
  sessions w !! sessionId = Some l →
  getSession sessionId w = (Normal l, w).
Proof. intros H. js. by rewrite H. Qed.

Lemma getSession_missing w sessionId :
  sessions w !! sessionId = None →
  getSession sessionId w = (Throw "Session not found", w).
Proof. intros H. js. by rewrite H. Qed.

Lemma update_live w l s f :
  heap w !! l = Some s →
  update l f w = (Normal tt, with_heap (<[l := f s]> (heap w)) w).
Proof. intros H. unfold update. by rewrite H. Qed.

Lemma deref_live w l s :
  heap w !! l = Some s → deref l w = (Normal s, w).
Proof. intros H. unfold deref. by rewrite H. Qed.

Lemma sendMessage_ok w sessionId message text l s :
  sessions w !! sessionId = Some l →
  heap w !! l = Some s →
  sendMessage clock uuidv4 (Text text) sessionId message w =
    (Normal (SendResult.mk text (uuidv4 (uuids w)) (Session.id s)),
     mkWorld (sessions w)
       (<[l := appended (uuidv4 (uuids w)) message text
                (clock (dates w)) (clock (S (dates w))) s]> (heap w))
       (S (S (dates w))) (S (uuids w)) (chats w)).
Proof.
  intros Hk Hl. js. rewrite Hk. simpl.
  assert (Hlt : (l < length (heap w))%nat) by by eapply lookup_lt_Some.
  unfold update, deref; simpl. rewrite Hl. simpl.
  rewrite list_lookup_insert_eq by done. simpl.
  rewrite list_lookup_insert_eq by (by rewrite length_insert).
  by rewrite list_insert_insert_eq.
Qed.

Lemma sendMessage_unknown w r sessionId message :
  sessions w !! sessionId = None →
  sendMessage clock uuidv4 r sessionId message w =
    (Throw "Failed to send message: Session not found", w).
Proof. intros H. js. by rewrite H. Qed.

(** C2. On an id that is not in the registry, [sendMessage] (append) and
    [getSession] (get) both fail with "Session not found" (the message the
    handlers map to 404), whatever the provider would have answered, and the
    world they leave is the world they found: no session was created. *)
Theorem unknown_id_fails_and_creates_nothing w r sessionId message :
  sessions w !! sessionId = None →
  sendMessage clock uuidv4 r sessionId message w =
    (Throw "Failed to send message: Session not found", w)
  ∧ getSession sessionId w = (Throw "Session not found", w).
Proof.
  intros H. split; [by apply sendMessage_unknown | by apply getSession_missing].
Qed.

Lemma sendMessage_failure w e sessionId message l :
  sessions w !! sessionId = Some l →
  sendMessage clock uuidv4 (Failure e) sessionId message w =
    (Throw ("Failed to send message: " ++ e), w).
Proof. intros Hk. js. by rewrite Hk. Qed.

(** C4. When the provider call of [sendMessage] fails on an existing session,
    the error is rethrown to the caller and the world is left as it was: the
    session object keeps its history, its lastActivity and its other fields,
    so no exchange, partial or whole, was recorded. *)
Theorem gateway_failure_leaves_session w e sessionId message l s :
  sessions w !! sessionId = Some l →
  heap w !! l = Some s →
  let r := sendMessage clock uuidv4 (Failure e) sessionId message w in
  fst r = Throw ("Failed to send message: " ++ e)
  ∧ snd r = w
  ∧ sessions (snd r) !! sessionId = Some l
  ∧ heap (snd r) !! l = Some s.
Proof.
  intros Hk Hl r. subst r. by rewrite (sendMessage_failure w e _ _ l Hk).
Qed.

(** C9. [getSessionHistory] on an existing session returns the fields of the
    session and leaves the whole world as it was: the history, createdAt,
    lastActivity and chatSession of that session and every other session are
    untouched; in particular lastActivity, which the eviction reads, is not
    refreshed. *)
Theorem getSessionHistory_read_only w sessionId l s :
  sessions w !! sessionId = Some l →
  heap w !! l = Some s →
  getSessionHistory sessionId w =
    (Normal (HistoryResult.mk (Session.id s) (Session.createdAt s)
               (Session.lastActivity s) (length (Session.history s))
               (Session.history s)), w).
Proof.
  intros Hk Hl. js. rewrite Hk. simpl. unfold deref. by rewrite Hl.
Qed.

(** C7. [deleteSession] on an existing id removes the entry of that id from
    the Map, and only that entry, and returns the time read at the deletion;
    on an absent id it fails with "Session not found" and changes nothing;
    after a successful delete, [getSession] on the id fails. *)
Theorem deleteSession_removes w sessionId :
  (∀ l, sessions w !! sessionId = Some l →
     let w' := mkWorld (delete sessionId (sessions w)) (heap w)
                 (S (dates w)) (uuids w) (chats w) in
     deleteSession clock sessionId w =
       (Normal (DeleteResult.mk sessionId (clock (dates w))), w')
     ∧ sessions w' !! sessionId = None
     ∧ (∀ k, k ≠ sessionId → sessions w' !! k = sessions w !! k)
     ∧ getSession sessionId w' = (Throw "Session not found", w'))
  ∧ (sessions w !! sessionId = None →
     deleteSession clock sessionId w =
       (Throw "Failed to delete session: Session not found", w)).
Proof.
  split.
  - intros l Hk w'. split; [| split; [| split]].
    + js. by rewrite Hk.
    + apply lookup_delete_eq.
    + intros k Hne. by apply lookup_delete_ne.
    + apply getSession_missing. apply lookup_delete_eq.
  - intros Hk. js. by rewrite Hk.
Qed.

Lemma clearSessionHistory_ok w sessionId l s :
  sessions w !! sessionId = Some l →
  heap w !! l = Some s →
  clearSessionHistory clock sessionId w =
    (Normal (ClearResult.mk sessionId (clock (S (dates w)))),
     mkWorld (sessions w)
       (<[l := Session.mk (Session.id s) (chats w) []
                 (Session.createdAt s) (clock (dates w))]> (heap w))
       (S (S (dates w))) (uuids w) (S (chats w))).
Proof.
  intros Hk Hl.
  assert (Hlt : (l < length (heap w))%nat) by by eapply lookup_lt_Some.
  js. rewrite Hk. simpl. unfold update; simpl. rewrite Hl. simpl.
  rewrite list_lookup_insert_eq by done. simpl.
  rewrite list_lookup_insert_eq by (by rewrite length_insert). simpl.
  by rewrite !list_insert_insert_eq.
Qed.

Lemma clearSessionHistory_unknown w sessionId :
  sessions w !! sessionId = None →
  clearSessionHistory clock sessionId w =
    (Throw "Failed to clear session history: Session not found", w).
Proof. intros Hk. js. by rewrite Hk. Qed.

(** C5. [clearSessionHistory] on an existing session empties the history,
    replaces the chat by the one [startChat] has just made (a handle that no
    session had before), keeps the id and createdAt, and sets lastActivity to
    the time read at the clear; the Map is unchanged.  On an absent id it
    fails with "Session not found" and changes nothing. *)
Theorem clearSessionHistory_resets w sessionId :
  (∀ l s, wf w → sessions w !! sessionId = Some l → heap w !! l = Some s →
     let s' := Session.mk (Session.id s) (chats w) []
                 (Session.createdAt s) (clock (dates w)) in
     let w' := mkWorld (sessions w) (<[l := s']> (heap w))
                 (S (S (dates w))) (uuids w) (S (chats w)) in
     clearSessionHistory clock sessionId w =
       (Normal (ClearResult.mk sessionId (clock (S (dates w)))), w')
     ∧ heap w' !! l = Some s'
     ∧ Session.chatSession s' ≠ Session.chatSession s
     ∧ (∀ l0 s0, heap w !! l0 = Some s0 →
          Session.chatSession s0 ≠ Session.chatSession s'))
  ∧ (sessions w !! sessionId = None →
     clearSessionHistory clock sessionId w =
       (Throw "Failed to clear session history: Session not found", w)).
Proof.
  split.
  - intros l s Hwf Hk Hl s' w'.
    assert (Hlt : (l < length (heap w))%nat) by by eapply lookup_lt_Some.
    assert (Hfresh : ∀ l0 s0, heap w !! l0 = Some s0 →
              Session.chatSession s0 ≠ chats w).
    { intros l0 s0 H0. pose proof (wf_chats w Hwf l0 s0 H0). lia. }
    split; [| split; [| split]].
    + by apply clearSessionHistory_ok.
    + simpl. by apply list_lookup_insert_eq.
    + simpl. intros Heq. by apply (Hfresh l s Hl).
    + simpl. exact Hfresh.
  - apply clearSessionHistory_unknown.
Qed.

(** C3. [inputs] are sent one after the other to an existing session, and
    the provider answers each.  Every call succeeds; the history of the
    session is the old history followed by one exchange per input, in the
    order of the calls, so its length grew by the number of calls (it is that
    number for a session whose history was empty, as after a create or a
    clear); and lastActivity is the last clock reading of the last call. *)
Theorem sequential_appends inputs : ∀ w sessionId l s,
  sessions w !! sessionId = Some l →
  heap w !! l = Some s →
  ∃ results w' s' new,
    sendMessages clock uuidv4 sessionId inputs w = (Normal results, w')
    ∧ length results = length inputs
    ∧ sessions w' = sessions w
    ∧ heap w' !! l = Some s'
    ∧ Session.history s' = (Session.history s ++ new)%list
    ∧ turns new = inputs
    ∧ length (Session.history s')
      = (length (Session.history s) + length inputs)%nat
    ∧ (Session.history s = [] →
       length (Session.history s') = length inputs)
    ∧ dates w' = (dates w + 2 * length inputs)%nat
    ∧ (inputs ≠ [] → Session.lastActivity s' = clock (dates w' - 1)%nat).
Proof.
  induction inputs as [| [message text] rest IH]; intros w sessionId l s Hk Hl.
  - exists [], w, s, []. simpl. unfold ret.
    rewrite app_nil_r, !Nat.add_0_r.
    split; [done |]. split; [done |]. split; [done |]. split; [done |].
    split; [done |]. split; [done |]. split; [done |].
    split; [by intros -> |]. split; [done |]. intros Hne. by destruct Hne.
  - pose proof (sendMessage_ok w sessionId message text l s Hk Hl) as Hsend.
    set (s1 := appended (uuidv4 (uuids w)) message text
                 (clock (dates w)) (clock (S (dates w))) s) in *.
    set (w1 := mkWorld (sessions w) (<[l := s1]> (heap w))
                 (S (S (dates w))) (S (uuids w)) (chats w)) in *.
    assert (Hl1 : heap w1 !! l = Some s1).
    { simpl. apply list_lookup_insert_eq. by eapply lookup_lt_Some. }
    destruct (IH w1 sessionId l s1 Hk Hl1)
      as (rs & w' & s' & new & Hrun & Hlen & Hmap & Hl' & Hhist & Hturns
          & Hcount & _ & Hdates & Hlast).
    exists (SendResult.mk text (uuidv4 (uuids w)) (Session.id s) :: rs),
      w', s', (Exchange.mk (uuidv4 (uuids w)) message text (clock (dates w))
               :: new).
    assert (Hgrow : length (Session.history s')
                    = (length (Session.history s)
                       + length ((message, text) :: rest))%nat).
    { rewrite Hcount. subst s1. simpl. rewrite length_app. simpl. lia. }
    split; [| split; [| split; [| split; [| split; [| split; [| split;
      [| split; [| split]]]]]]]].
    + simpl. unfold bind at 1. rewrite Hsend. fold w1.
      unfold bind at 1. rewrite Hrun. done.
    + simpl. by rewrite Hlen.
    + by rewrite Hmap.
    + done.
    + rewrite Hhist. subst s1. simpl. by rewrite <- app_assoc.
    + simpl. by rewrite Hturns.
    + done.
    + intros Hnil. rewrite Hgrow, Hnil. done.
    + rewrite Hdates. simpl. lia.
    + intros _. destruct rest as [| i rest'].
      * simpl in Hrun. unfold ret in Hrun. injection Hrun as _ <-.
        rewrite Hl1 in Hl'. injection Hl' as <-. subst s1 w1. simpl. done.
      * by apply Hlast.
Qed.

(** C1, as the code has it.  [createSession] with an id that is already in
    the Map does not fail: it makes a new session object (empty history, the
    chat just started, createdAt and lastActivity read from the clock) and
    stores it under the id, in the place of the session that was there.  The
    old object is not modified, it is only no longer in the Map.  The Map
    has one entry for the id, as before, and its other entries are the
    same. *)
Theorem createSession_existing_replaces w id l :
  wf w →
  sessions w !! id = Some l →
  let l' := length (heap w) in
  let s' := Session.mk id (chats w) []
              (clock (dates w)) (clock (S (dates w))) in
  let w' := mkWorld (<[id := l']> (sessions w)) (heap w ++ [s'])
              (S (S (dates w))) (uuids w) (S (chats w)) in
  createSession clock uuidv4 (Some id) w = (Normal l', w')
  ∧ sessions w' !! id = Some l'
  ∧ heap w' !! l' = Some s'
  ∧ l' ≠ l
  ∧ heap w' !! l = heap w !! l
  ∧ size (sessions w') = size (sessions w)
  ∧ (∀ k, k ≠ id → sessions w' !! k = sessions w !! k).
Proof.
  intros Hwf Hk l' s' w'.
  destruct (wf_live w Hwf id l Hk) as [s Hl].
  assert (Hlt : (l < length (heap w))%nat) by by eapply lookup_lt_Some.
  split; [| split; [| split; [| split; [| split; [| split]]]]].
  - js. rewrite (wf_truthy w Hwf id l Hk). done.
  - simpl. apply lookup_insert_eq.
  - simpl. subst l'. rewrite lookup_app_r by lia.
    by rewrite Nat.sub_diag.
  - subst l'. lia.
  - simpl. by apply lookup_app_l.
  - simpl. by eapply map_size_insert_Some.
  - intros k Hne. simpl. by apply lookup_insert_ne.
Qed.

(** *** The eviction loop *)

Lemma size_delete_Some (m : gmap string loc) k l :
  m !! k = Some l → S (size (delete k m)) = size m.
Proof.
  intros Hk. rewrite <- (map_size_insert_None k l) by apply lookup_delete_eq.
  by rewrite insert_delete_id.
Qed.

(** The loop over a list of entries of the Map, without repeated keys: it
    does not throw, it deletes the entries it finds stale and keeps the
    others, and it counts one per deletion. *)
Lemma cleanup_loop_spec now maxAge es : ∀ n w,
  NoDup es.*1 →
  (∀ k l, (k, l) ∈ es → sessions w !! k = Some l ∧ is_Some (heap w !! l)) →
  ∃ n' m',
    cleanup_loop now maxAge es n w = (Normal n', with_sessions m' w)
    ∧ (n' + size m' = n + size (sessions w))%nat
    ∧ (∀ k l, (k, l) ∈ es →
         m' !! k = if stale now maxAge (heap w) l then None else Some l)
    ∧ (∀ k, k ∉ es.*1 → m' !! k = sessions w !! k).
Proof.
  induction es as [| [k l] es IH]; intros n w Hnd Hin.
  - exists n, (sessions w). simpl. unfold ret, with_sessions.
    destruct w; simpl. split; [done |]. split; [done |].
    split; [| done]. intros k l H. by apply elem_of_nil in H.
  - simpl in Hnd. apply NoDup_cons in Hnd as [Hk Hnd].
    destruct (Hin k l) as [Hkl [s Hl]]; [by left |].
    simpl. unfold bind at 1. rewrite (deref_live w l s Hl).
    assert (Hst : stale now maxAge (heap w) l
                  = bool_decide (now - Session.lastActivity s > maxAge))
      by (unfold stale; by rewrite Hl).
    destruct (bool_decide (now - Session.lastActivity s > maxAge)) eqn:Hage.
    + unfold bind at 1, Map_delete at 1.
      set (w1 := with_sessions (delete k (sessions w)) w).
      destruct (IH (S n) w1 Hnd) as (n' & m' & Hrun & Hsize & Hes & Hout).
      { intros k0 l0 H0. destruct (Hin k0 l0) as [Hk0 Hl0]; [by right |].
        split; [| done]. simpl. rewrite lookup_delete_ne; [done |].
        intros <-. apply Hk. apply list_elem_of_fmap. by exists (k, l0). }
      exists n', m'. split; [exact Hrun |]. split; [| split].
      * rewrite Hsize. simpl. rewrite <- (size_delete_Some _ k l Hkl). lia.
      * intros k0 l0 H0. apply elem_of_cons in H0 as [[= -> ->] | H0].
        -- rewrite Hst, Hout by done. simpl. apply lookup_delete_eq.
        -- by apply Hes.
      * intros k0 H0. apply not_elem_of_cons in H0 as [Hne H0].
        rewrite Hout by done. simpl. by apply lookup_delete_ne.
    + destruct (IH n w Hnd) as (n' & m' & Hrun & Hsize & Hes & Hout).
      { intros k0 l0 H0. apply Hin. by right. }
      exists n', m'. split; [exact Hrun |]. split; [done |]. split.
      * intros k0 l0 H0. apply elem_of_cons in H0 as [[= -> ->] | H0].
        -- rewrite Hst, Hout by done. done.
        -- by apply Hes.
      * intros k0 H0. apply not_elem_of_cons in H0 as [Hne H0]. by apply Hout.
Qed.

(** [cleanupInactiveSessions], in one equation: the Map that is left is the
    Map filtered by age, the objects are not touched, and the two counts add
    up to the size the Map had. *)
Lemma cleanup_spec w maxAge :
  wf w →
  let age := default (24 * 60 * 60 * 1000) maxAge in
  let now := clock (dates w) in
  let m' := filter (λ kv, stale now age (heap w) kv.2 = false) (sessions w) in
  ∃ n, cleanupInactiveSessions clock maxAge w =
         (Normal (CleanupResult.mk n (size m')),
          mkWorld m' (heap w) (S (dates w)) (uuids w) (chats w))
       ∧ (n + size m' = size (sessions w))%nat.
Proof.
  intros Hwf age now m'.
  set (w1 := mkWorld (sessions w) (heap w) (S (dates w)) (uuids w) (chats w)).
  destruct (cleanup_loop_spec now age (map_to_list (sessions w)) 0%nat w1)
    as (n & m & Hrun & Hsize & Hes & Hout).
  { apply NoDup_fst_map_to_list. }
  { intros k l H. apply elem_of_map_to_list in H. split; [done |].
    by apply (wf_live w Hwf k l). }
  assert (Hm : m = m').
  { apply map_eq. intros k. subst m'. rewrite map_lookup_filter.
    destruct (sessions w !! k) as [l |] eqn:Hk; simpl.
    - rewrite (Hes k l) by by apply elem_of_map_to_list.
      simpl. destruct (stale now age (heap w) l) eqn:Hst.
      + by rewrite option_guard_False.
      + by rewrite option_guard_True.
    - rewrite Hout; [done |]. intros H. apply list_elem_of_fmap in H
        as [[k0 l0] [-> H]]. apply elem_of_map_to_list in H. simpl in H.
      simpl in Hk. congruence. }
  subst m. exists n. split; [| exact Hsize].
  unfold cleanupInactiveSessions, bind, newDate, Map_entries, Map_size, ret.
  fold w1. simpl. fold age now. rewrite Hrun. done.
Qed.

(** C6. [cleanupInactiveSessions] reads the clock once ([now]) and then
    removes from the Map every session with [now - lastActivity > maxAge]
    and no session with [now - lastActivity <= maxAge]; ids that were not
    in the Map are not in it afterwards.  It returns the number of sessions
    it removed and the size of the Map it leaves.  [maxAge] is 24 hours when
    the caller gives none. *)
Theorem cleanup_evicts_exactly_the_stale w maxAge :
  wf w →
  let age := default (24 * 60 * 60 * 1000) maxAge in
  let now := clock (dates w) in
  ∃ res w',
    cleanupInactiveSessions clock maxAge w = (Normal res, w')
    ∧ (∀ k l s, sessions w !! k = Some l → heap w !! l = Some s →
         ((now - Session.lastActivity s > age)%Z → sessions w' !! k = None)
         ∧ ((now - Session.lastActivity s ≤ age)%Z → sessions w' !! k = Some l))
    ∧ (∀ k, sessions w !! k = None → sessions w' !! k = None)
    ∧ CleanupResult.cleaned res
      = size (filter (λ kv, stale now age (heap w) kv.2 = true) (sessions w))
    ∧ CleanupResult.remaining res = size (sessions w').
Proof.
  intros Hwf age now.
  destruct (cleanup_spec w maxAge Hwf) as (n & Hrun & Hsize).
  fold age now in Hrun, Hsize.
  set (P := λ kv : string * loc, stale now age (heap w) kv.2 = false)
    in Hrun, Hsize |- *.
  eexists _, _. split; [exact Hrun |]. simpl.
  split; [| split; [| split; [| done]]].
  - intros k l s Hk Hl.
    assert (Hst : stale now age (heap w) l
                  = bool_decide (now - Session.lastActivity s > age))
      by (unfold stale; by rewrite Hl).
    split; intros Hage.
    + apply map_lookup_filter_None. right. intros x Hx. unfold P. simpl.
      assert (x = l) as -> by congruence.
      rewrite Hst, bool_decide_eq_true_2 by done. done.
    + apply map_lookup_filter_Some. split; [done |]. unfold P. simpl.
      rewrite Hst. apply bool_decide_eq_false_2. lia.
  - intros k Hk. apply map_lookup_filter_None. by left.
  - assert (Hs : size (sessions w)
                 = (size (filter P (sessions w))
                    + size (filter (λ v, ¬ P v) (sessions w)))%nat).
    { rewrite <- map_size_disj_union
        by apply map_disjoint_filter_complement.
      by rewrite map_filter_union_complement. }
    assert (He : filter (λ v, ¬ P v) (sessions w)
                 = filter (λ kv, stale now age (heap w) kv.2 = true)
                     (sessions w)).
    { apply map_filter_ext. intros k l _. unfold P. simpl.
      destruct (stale now age (heap w) l); split; intros H; try done;
        by destruct H. }
    rewrite He in Hs. lia.
Qed.

(** C10. The two counts that [cleanupInactiveSessions] returns add up to the
    number of sessions the Map had before the call; the session objects are
    not touched, and an id that is still in the Map refers to the object it
    referred to before. *)
Theorem cleanup_counts_add_up w maxAge :
  wf w →
  ∃ res w',
    cleanupInactiveSessions clock maxAge w = (Normal res, w')
    ∧ (CleanupResult.cleaned res + CleanupResult.remaining res
       = size (sessions w))%nat
    ∧ heap w' = heap w
    ∧ (∀ k l, sessions w' !! k = Some l → sessions w !! k = Some l).
Proof.
  intros Hwf.
  destruct (cleanup_spec w maxAge Hwf) as (n & Hrun & Hsize).
  eexists _, _. split; [exact Hrun |]. simpl.
  split; [exact Hsize |]. split; [done |].
  intros k l H. by apply map_lookup_filter_Some in H as [H _].
Qed.

(** *** Two calls of [sendMessage] in flight *)

Lemma resume_ok r w l s message text :
  heap w !! l = Some s →
  task_step clock uuidv4 r (AwaitResponse l message text) w =
    (Settled (Normal (SendResult.mk text (uuidv4 (uuids w)) (Session.id s))),
     mkWorld (sessions w)
       (<[l := appended (uuidv4 (uuids w)) message text
                (clock (dates w)) (clock (S (dates w))) s]> (heap w))
       (S (S (dates w))) (S (uuids w)) (chats w)).
Proof.
  intros Hl. js.
  assert (Hlt : (l < length (heap w))%nat) by by eapply lookup_lt_Some.
  unfold update, deref; simpl. rewrite Hl. simpl.
  rewrite list_lookup_insert_eq by done. simpl.
  rewrite list_lookup_insert_eq by (by rewrite length_insert).
  by rewrite list_insert_insert_eq.
Qed.

(** The three steps of a call, taken one after the other with nothing in
    between, are [sendMessage]. *)
Lemma task_steps_sendMessage r sessionId message w :
  let '(t1, w1) := task_step clock uuidv4 r (Called sessionId message) w in
  let '(t2, w2) := task_step clock uuidv4 r t1 w1 in
  let '(t3, w3) := task_step clock uuidv4 r t2 w2 in
  (t3, w3) =
    (Settled (fst (sendMessage clock uuidv4 r sessionId message w)),
     snd (sendMessage clock uuidv4 r sessionId message w)).
Proof.
  js. destruct (sessions w !! sessionId) as [l |]; simpl; [| done].
  destruct r as [text | e]; simpl; [| done].
  unfold update, deref; simpl.
  destruct (heap w !! l) as [s |] eqn:Hl; simpl; [| done].
  assert (Hlt : (l < length (heap w))%nat) by by eapply lookup_lt_Some.
  rewrite list_lookup_insert_eq by done. simpl.
  rewrite list_lookup_insert_eq by (by rewrite length_insert). done.
Qed.

Lemma phase_le t : (phase t ≤ 3)%nat.
Proof. destruct t; simpl; lia. Qed.

(** One step of a call that the provider answers, on a world in which the
    session is still registered. *)
Lemma task_step_inv sessionId l message text t w s :
  task_inv sessionId l message text t →
  sessions w !! sessionId = Some l →
  heap w !! l = Some s →
  ∃ t' w' s' extra,
    task_step clock uuidv4 (Text text) t w = (t', w')
    ∧ task_inv sessionId l message text t'
    ∧ phase t' = ((phase t + 1) `min` 3)%nat
    ∧ sessions w' = sessions w
    ∧ heap w' !! l = Some s'
    ∧ Session.history s' = (Session.history s ++ extra)%list
    ∧ ((extra = [] ∧ produced message text t' = produced message text t)
       ∨ (produced message text t = []
          ∧ produced message text t' = turns extra)).
Proof.
  intros Ht Hk Hl. destruct t as [i m | l' m | l' m x | c]; simpl in Ht.
  - destruct Ht as [-> ->].
    exists (AwaitSend l message), w, s, [].
    split; [js; by rewrite Hk |]. rewrite app_nil_r. simpl. auto 10.
  - destruct Ht as [-> ->].
    exists (AwaitResponse l message text), w, s, [].
    rewrite app_nil_r. simpl. auto 10.
  - destruct Ht as (-> & -> & ->).
    eexists _, _, _, [_]. split; [by apply resume_ok |]. simpl.
    split; [by eexists |]. split; [done |]. split; [done |].
    split; [apply list_lookup_insert_eq; by eapply lookup_lt_Some |].
    split; [done |]. right. done.
  - exists (Settled c), w, s, []. rewrite app_nil_r. simpl. auto 10.
Qed.

Lemma turn_step_inv sessionId l h m mA tA mB tB c t :
  m !! sessionId = Some l →
  two_calls_inv sessionId l h m mA tA mB tB c →
  let c' := turn_step clock uuidv4 (Text tA) (Text tB) c t in
  two_calls_inv sessionId l h m mA tA mB tB c'
  ∧ phase (taskA c')
    = (if is_turn A t then ((phase (taskA c) + 1) `min` 3)%nat
       else phase (taskA c))
  ∧ phase (taskB c')
    = (if is_turn B t then ((phase (taskB c) + 1) `min` 3)%nat
       else phase (taskB c)).
Proof.
  intros Hm (HA & HB & Hs & s' & new & Hl & Hh & Hnew) c'.
  rewrite <- Hs in Hm. destruct t.
  - destruct (task_step_inv sessionId l mA tA (taskA c) (world c) s' HA Hm Hl)
      as (t' & w' & s'' & extra & Hstep & Ht' & Hph & Hs' & Hl' & Hh' & Hp).
    subst c'. unfold turn_step. rewrite Hstep. simpl.
    split; [| done]. split; [done |]. split; [done |].
    split; [simpl; congruence |]. exists s'', (new ++ extra)%list.
    split; [done |]. split; [by rewrite Hh', Hh, app_assoc |].
    simpl. unfold turns in *. rewrite map_app.
    destruct Hp as [[-> ->] | [Hnil ->]].
    + simpl. by rewrite app_nil_r.
    + rewrite Hnil in Hnew. simpl in Hnew. rewrite app_nil_r in Hnew.
      right. destruct Hnew as [-> | ->]; done.
  - destruct (task_step_inv sessionId l mB tB (taskB c) (world c) s' HB Hm Hl)
      as (t' & w' & s'' & extra & Hstep & Ht' & Hph & Hs' & Hl' & Hh' & Hp).
    subst c'. unfold turn_step. rewrite Hstep. simpl.
    split; [| done]. split; [done |]. split; [done |].
    split; [simpl; congruence |]. exists s'', (new ++ extra)%list.
    split; [done |]. split; [by rewrite Hh', Hh, app_assoc |].
    simpl. unfold turns in *. rewrite map_app.
    destruct Hp as [[-> ->] | [Hnil ->]].
    + simpl. by rewrite app_nil_r.
    + rewrite Hnil in Hnew. simpl in Hnew. rewrite app_nil_r in Hnew.
      left. destruct Hnew as [-> | ->]; done.
Qed.

Lemma run_inv sessionId l h m mA tA mB tB schedule : ∀ c,
  m !! sessionId = Some l →
  two_calls_inv sessionId l h m mA tA mB tB c →
  (3 ≤ phase (taskA c) + resumptions A schedule)%nat →
  (3 ≤ phase (taskB c) + resumptions B schedule)%nat →
  let c' := run clock uuidv4 (Text tA) (Text tB) schedule c in
  two_calls_inv sessionId l h m mA tA mB tB c'
  ∧ phase (taskA c') = 3%nat ∧ phase (taskB c') = 3%nat.
Proof.
  induction schedule as [| t rest IH]; intros c Hm Hinv HA HB c'; subst c';
    simpl in *.
  - pose proof (phase_le (taskA c)). pose proof (phase_le (taskB c)).
    split; [done |]. lia.
  - destruct (turn_step_inv sessionId l h m mA tA mB tB c t Hm Hinv)
      as (Hinv' & HpA & HpB).
    apply IH; [done | done | |].
    + rewrite HpA. pose proof (phase_le (taskA c)).
      destruct t; simpl in *; lia.
    + rewrite HpB. pose proof (phase_le (taskB c)).
      destruct t; simpl in *; lia.
Qed.

(** C8. Two calls of [sendMessage] on the same existing session are in
    flight together, the provider answers both, and the event loop resumes
    them in any order, each at least as often as it has steps.  Both calls
    resolve; the history of the session is the old history followed by the
    two exchanges, in one of the two orders, and so is longer by two: no
    exchange is lost.  The order is a function of the schedule. *)
Theorem concurrent_appends_both_recorded
    w sessionId l s mA tA mB tB schedule :
  sessions w !! sessionId = Some l →
  heap w !! l = Some s →
  (3 ≤ resumptions A schedule)%nat →
  (3 ≤ resumptions B schedule)%nat →
  let c := run clock uuidv4 (Text tA) (Text tB) schedule
             (mkConfig (Called sessionId mA) (Called sessionId mB) w) in
  ∃ rA rB s' new,
    taskA c = Settled (Normal rA) ∧ SendResult.response rA = tA
    ∧ taskB c = Settled (Normal rB) ∧ SendResult.response rB = tB
    ∧ sessions (world c) = sessions w
    ∧ heap (world c) !! l = Some s'
    ∧ Session.history s' = (Session.history s ++ new)%list
    ∧ (turns new = [(mA, tA); (mB, tB)] ∨ turns new = [(mB, tB); (mA, tA)])
    ∧ length (Session.history s') = (length (Session.history s) + 2)%nat.
Proof.
  intros Hk Hl HA HB c.
  destruct (run_inv sessionId l (Session.history s) (sessions w)
              mA tA mB tB schedule
              (mkConfig (Called sessionId mA) (Called sessionId mB) w))
    as ((HtA & HtB & Hs & s' & new & Hl' & Hh & Hnew) & HpA & HpB);
    [done | | done | done |].
  { split; [done |]. split; [done |]. split; [done |].
    exists s, []. rewrite app_nil_r. simpl. auto. }
  fold c in HtA, HtB, Hs, Hl', Hnew, HpA, HpB.
  destruct (taskA c) as [| | | cA]; try done.
  destruct (taskB c) as [| | | cB]; try done.
  destruct HtA as (rA & -> & HrA). destruct HtB as (rB & -> & HrB).
  simpl in Hnew. exists rA, rB, s', new.
  split; [done |]. split; [done |]. split; [done |]. split; [done |].
  split; [done |]. split; [done |]. split; [done |]. split; [done |].
  rewrite Hh, length_app. f_equal.
  assert (Hlen : length (turns new) = 2%nat) by (destruct Hnew as [-> | ->]; done).
  unfold turns in Hlen. by rewrite length_map in Hlen.
Qed.

(** *** Every world the service reaches is well formed *)

Lemma wf_init : wf init.
Proof. split; intros *; simpl; by rewrite ?lookup_empty. Qed.

Lemma wf_heap_insert w l s s' d u c :
  wf w →
  heap w !! l = Some s →
  Session.id s' = Session.id s →
  (Session.chatSession s' < c)%nat →
  (chats w ≤ c)%nat →
  wf (mkWorld (sessions w) (<[l := s']> (heap w)) d u c).
Proof.
  intros [Hlive Hkey Htruthy Hchats] Hl Hid Hc Hle.
  assert (Hlt : (l < length (heap w))%nat) by by eapply lookup_lt_Some.
  split; simpl.
  - intros k l0 Hk. destruct (decide (l0 = l)) as [-> |].
    + rewrite list_lookup_insert_eq by done. by eexists.
    + rewrite list_lookup_insert_ne by done. by eapply Hlive.
  - intros k l0 s0 Hk. destruct (decide (l0 = l)) as [-> |].
    + rewrite list_lookup_insert_eq by done. intros [= <-].
      rewrite Hid. by eapply Hkey.
    + rewrite list_lookup_insert_ne by done. by apply Hkey.
  - done.
  - intros l0 s0. destruct (decide (l0 = l)) as [-> |].
    + rewrite list_lookup_insert_eq by done. by intros [= <-].
    + rewrite list_lookup_insert_ne by done. intros H0.
      pose proof (Hchats l0 s0 H0). lia.
Qed.

Lemma wf_sessions_sub w m d u :
  wf w →
  (∀ k l, m !! k = Some l → sessions w !! k = Some l) →
  wf (mkWorld m (heap w) d u (chats w)).
Proof.
  intros [Hlive Hkey Htruthy Hchats] Hsub. split; simpl; eauto.
Qed.

Lemma wf_createSession sessionId w :
  (∀ n, truthy (uuidv4 n) = true) →
  wf w →
  wf (snd (createSession clock uuidv4 sessionId w)).
Proof.
  intros Huuid [Hlive Hkey Htruthy Hchats].
  assert (Hnew : ∀ id d u, truthy id = true →
    wf (mkWorld (<[id := length (heap w)]> (sessions w))
          (heap w ++ [Session.mk id (chats w) [] (clock d) (clock (S d))])
          (S (S d)) u (S (chats w)))).
  { intros id d u Hid. split; simpl.
    - intros k l. destruct (decide (k = id)) as [-> |].
      + rewrite lookup_insert_eq. intros [= <-].
        rewrite lookup_app_r, Nat.sub_diag by lia. by eexists.
      + rewrite lookup_insert_ne by done. intros Hk.
        destruct (Hlive k l Hk) as [s Hs]. exists s. by apply lookup_app_l_Some.
    - intros k l s. destruct (decide (k = id)) as [-> |].
      + rewrite lookup_insert_eq. intros [= <-].
        rewrite lookup_app_r, Nat.sub_diag by lia. by intros [= <-].
      + rewrite lookup_insert_ne by done. intros Hk.
        destruct (Hlive k l Hk) as [s0 Hs0].
        rewrite (lookup_app_l_Some _ _ _ _ Hs0). intros [= <-]. by eapply Hkey.
    - intros k l. destruct (decide (k = id)) as [-> |].
      + done.
      + rewrite lookup_insert_ne by done. apply Htruthy.
    - intros l s Hl. apply lookup_app_Some in Hl as [Hl | [_ Hl]].
      + pose proof (Hchats l s Hl). lia.
      + apply list_lookup_singleton_Some in Hl as [_ <-]. simpl. lia. }
  destruct sessionId as [id |]; [destruct (truthy id) eqn:Hid |].
  - js. rewrite Hid. simpl. by apply Hnew.
  - js. rewrite Hid. simpl. by apply Hnew.
  - js. by apply Hnew.
Qed.

Lemma wf_sendMessage r sessionId message w :
  wf w → wf (snd (sendMessage clock uuidv4 r sessionId message w)).
Proof.
  intros Hwf. destruct (sessions w !! sessionId) as [l |] eqn:Hk.
  - destruct r as [text | e].
    + destruct (wf_live w Hwf _ _ Hk) as [s Hl].
      rewrite (sendMessage_ok w sessionId message text l s Hk Hl). simpl.
      eapply wf_heap_insert; [done | done | done | | done].
      simpl. by eapply wf_chats.
    + by rewrite (sendMessage_failure w e sessionId message l Hk).
  - by rewrite sendMessage_unknown.
Qed.

Lemma wf_getSessionHistory sessionId w :
  wf w → wf (snd (getSessionHistory sessionId w)).
Proof.
  intros Hwf. js. destruct (sessions w !! sessionId) as [l |]; simpl; [| done].
  unfold deref. by destruct (heap w !! l).
Qed.

Lemma wf_deleteSession sessionId w :
  wf w → wf (snd (deleteSession clock sessionId w)).
Proof.
  intros Hwf. js. destruct (sessions w !! sessionId) as [l |]; simpl; [| done].
  apply wf_sessions_sub; [done |]. intros k l0 H.
  by apply lookup_delete_Some in H as [_ H].
Qed.

Lemma wf_clearSessionHistory sessionId w :
  wf w → wf (snd (clearSessionHistory clock sessionId w)).
Proof.
  intros Hwf. destruct (sessions w !! sessionId) as [l |] eqn:Hk.
  - destruct (wf_live w Hwf _ _ Hk) as [s Hl].
    rewrite (clearSessionHistory_ok w sessionId l s Hk Hl). simpl.
    eapply wf_heap_insert; [done | done | done | simpl; lia | lia].
  - by rewrite clearSessionHistory_unknown.
Qed.

Lemma wf_cleanupInactiveSessions maxAge w :
  wf w → wf (snd (cleanupInactiveSessions clock maxAge w)).
Proof.
  intros Hwf. destruct (cleanup_spec w maxAge Hwf) as (n & -> & _). simpl.
  apply wf_sessions_sub; [done |]. intros k l H.
  by apply map_lookup_filter_Some in H as [H _].
Qed.

Lemma wf_task_step r t w :
  wf w → wf (snd (task_step clock uuidv4 r t w)).
Proof.
  intros Hwf. destruct t as [i m | l m | l m x | c].
  - js. by destruct (sessions w !! i).
  - simpl. by destruct r.
  - destruct (heap w !! l) as [s |] eqn:Hl.
    + rewrite (resume_ok r w l s m x Hl). simpl.
      eapply wf_heap_insert; [done | done | done | | done].
      simpl. by eapply wf_chats.
    + js. unfold update. simpl. rewrite Hl. simpl.
      by apply wf_sessions_sub.
  - done.
Qed.

Lemma summarize_pure values : ∀ w, snd (summarize values w) = w.
Proof.
  induction values as [| l values IH]; intros w; simpl; [done |].
  unfold bind, deref. destruct (heap w !! l); simpl; [| done].
  specialize (IH w). by destruct (summarize values w) as [[ss | e] w'].
Qed.

Lemma getAllSessions_pure w : snd (getAllSessions w) = w.
Proof.
  unfold getAllSessions, bind, Map_values. simpl.
  pose proof (summarize_pure (map_to_list (sessions w)).*2 w) as H.
  by destruct (summarize _ w) as [[ss | e] w'].
Qed.

(** Whatever requests were served, the world is well formed (the uuids are
    non-empty strings). *)
Lemma wf_served calls :
  (∀ n, truthy (uuidv4 n) = true) →
  wf (served clock uuidv4 calls).
Proof.
  intros Huuid. unfold served. generalize wf_init. generalize init.
  induction calls as [| c calls IH]; intros w Hwf; simpl; [done |].
  apply IH. destruct c; simpl.
  - by apply wf_createSession.
  - by apply wf_sendMessage.
  - by apply wf_getSessionHistory.
  - by apply wf_deleteSession.
  - by apply wf_clearSessionHistory.
  - by rewrite getAllSessions_pure.
  - by apply wf_cleanupInactiveSessions.
Qed.

End Facts.

(** ** The concrete runs *)

Lemma uuid0_truthy n : truthy (uuid0 n) = true.
Proof. reflexivity. Qed.

Lemma wf_w_s1 : wf w_s1.
Proof. apply wf_createSession; [apply uuid0_truthy | apply wf_init]. Qed.

Lemma wf_w_hi : wf w_hi.
Proof. apply wf_sendMessage, wf_w_s1. Qed.

Lemma wf_w_two : wf w_two.
Proof. apply wf_createSession; [apply uuid0_truthy | apply wf_w_hi]. Qed.

Example run_w_hi :
  w_hi = mkWorld {["s1" := 0%nat]} [s1_hi] 4 1 1.
Proof. vm_compute. reflexivity. Qed.

Example run_w_two :
  registered w_two "s1" = Some s1_hi ∧ registered w_two "s2" = Some s2_new
  ∧ size (sessions w_two) = 2%nat.
Proof. vm_compute. done. Qed.

(** C1, as the claim states it, fails on the scenario of the spec: "dup" is
    created, one exchange is appended, and "dup" is created again.  The
    second create returns normally, and the session registered under "dup"
    is no longer the one with the exchange but a new, empty one. *)
Lemma createSession_duplicate_not_rejected :
  registered w_dup "dup" = Some dup_hi
  ∧ fst (createSession clock0 uuid0 (Some "dup") w_dup) = Normal 1%nat
  ∧ (∀ e, fst (createSession clock0 uuid0 (Some "dup") w_dup) ≠ Throw e)
  ∧ registered w_dup_again "dup" = Some dup_new
  ∧ registered w_dup_again "dup" ≠ registered w_dup "dup".
Proof.
  split; [by vm_compute |]. split; [by vm_compute |].
  split; [intros e; by vm_compute |]. split; [by vm_compute |].
  by vm_compute.
Qed.

(** *** The theorems at the concrete runs

    Each theorem above is applied to one of the worlds of the scenarios; its
    hypotheses are checked there by evaluation. *)

Lemma unknown_id_witness :
  sessions w_hi !! "s9" = None
  ∧ sendMessage clock0 uuid0 (Text "hello") "s9" "hi" w_hi
    = (Throw "Failed to send message: Session not found", w_hi)
  ∧ getSession "s9" w_hi = (Throw "Session not found", w_hi).
Proof.
  assert (H : sessions w_hi !! "s9" = None) by (vm_compute; reflexivity).
  split; [exact H |].
  exact (unknown_id_fails_and_creates_nothing clock0 uuid0 w_hi
           (Text "hello") "s9" "hi" H).
Defined.

Lemma gateway_failure_witness :
  sessions w_hi !! "s1" = Some 0%nat
  ∧ heap w_hi !! 0%nat = Some s1_hi
  ∧ fst (sendMessage clock0 uuid0 (Failure "503") "s1" "again" w_hi)
    = Throw "Failed to send message: 503"
  ∧ snd (sendMessage clock0 uuid0 (Failure "503") "s1" "again" w_hi) = w_hi.
Proof.
  assert (Hk : sessions w_hi !! "s1" = Some 0%nat) by (vm_compute; reflexivity).
  assert (Hl : heap w_hi !! 0%nat = Some s1_hi) by (vm_compute; reflexivity).
  split; [exact Hk |]. split; [exact Hl |].
  destruct (gateway_failure_leaves_session clock0 uuid0 w_hi "503" "s1"
              "again" 0%nat s1_hi Hk Hl) as (Hfst & Hsnd & _).
  split; [exact Hfst | exact Hsnd].
Defined.

Lemma getSessionHistory_witness :
  sessions w_hi !! "s1" = Some 0%nat
  ∧ heap w_hi !! 0%nat = Some s1_hi
  ∧ getSessionHistory "s1" w_hi
    = (Normal (HistoryResult.mk "s1" 0 3000 1
                 [Exchange.mk "uuid-0" "hi" "hello" 2000]), w_hi).
Proof.
  assert (Hk : sessions w_hi !! "s1" = Some 0%nat) by (vm_compute; reflexivity).
  assert (Hl : heap w_hi !! 0%nat = Some s1_hi) by (vm_compute; reflexivity).
  split; [exact Hk |]. split; [exact Hl |].
  exact (getSessionHistory_read_only w_hi "s1" 0%nat s1_hi Hk Hl).
Defined.

Lemma deleteSession_witness :
  sessions w_hi !! "s1" = Some 0%nat
  ∧ fst (deleteSession clock0 "s1" w_hi)
    = Normal (DeleteResult.mk "s1" 4000)
  ∧ getSession "s1" (snd (deleteSession clock0 "s1" w_hi))
    = (Throw "Session not found", snd (deleteSession clock0 "s1" w_hi))
  ∧ sessions w_hi !! "s9" = None
  ∧ deleteSession clock0 "s9" w_hi
    = (Throw "Failed to delete session: Session not found", w_hi).
Proof.
  assert (Hk : sessions w_hi !! "s1" = Some 0%nat) by (vm_compute; reflexivity).
  assert (Hn : sessions w_hi !! "s9" = None) by (vm_compute; reflexivity).
  destruct (deleteSession_removes clock0 w_hi "s1") as [Hdel _].
  destruct (Hdel 0%nat Hk) as (Hrun & _ & _ & Hget).
  destruct (deleteSession_removes clock0 w_hi "s9") as [_ Habsent].
  split; [exact Hk |]. rewrite Hrun.
  split; [reflexivity |]. split; [exact Hget |]. split; [exact Hn |].
  exact (Habsent Hn).
Defined.

Lemma clearSessionHistory_witness :
  wf w_hi
  ∧ sessions w_hi !! "s1" = Some 0%nat
  ∧ heap w_hi !! 0%nat = Some s1_hi
  ∧ fst (clearSessionHistory clock0 "s1" w_hi)
    = Normal (ClearResult.mk "s1" 5000)
  ∧ heap (snd (clearSessionHistory clock0 "s1" w_hi)) !! 0%nat
    = Some (Session.mk "s1" 1 [] 0 4000)
  ∧ sessions w_hi !! "s9" = None
  ∧ clearSessionHistory clock0 "s9" w_hi
    = (Throw "Failed to clear session history: Session not found", w_hi).
Proof.
  assert (Hk : sessions w_hi !! "s1" = Some 0%nat) by (vm_compute; reflexivity).
  assert (Hl : heap w_hi !! 0%nat = Some s1_hi) by (vm_compute; reflexivity).
  assert (Hn : sessions w_hi !! "s9" = None) by (vm_compute; reflexivity).
  destruct (clearSessionHistory_resets clock0 w_hi "s1") as [Hclear _].
  destruct (Hclear 0%nat s1_hi wf_w_hi Hk Hl) as (Hrun & Hobj & _).
  destruct (clearSessionHistory_resets clock0 w_hi "s9") as [_ Habsent].
  split; [exact wf_w_hi |]. split; [exact Hk |]. split; [exact Hl |].
  rewrite Hrun. split; [reflexivity |]. split; [exact Hobj |].
  split; [exact Hn |]. exact (Habsent Hn).
Defined.

Lemma sequential_appends_witness :
  sessions w_s1 !! "s1" = Some 0%nat
  ∧ heap w_s1 !! 0%nat = Some s1_new
  ∧ ∃ results w' s',
      sendMessages clock0 uuid0 "s1" [("hi", "hello"); ("bye", "goodbye")] w_s1
      = (Normal results, w')
      ∧ heap w' !! 0%nat = Some s'
      ∧ turns (Session.history s') = [("hi", "hello"); ("bye", "goodbye")]
      ∧ length (Session.history s') = 2%nat.
Proof.
  assert (Hk : sessions w_s1 !! "s1" = Some 0%nat) by (vm_compute; reflexivity).
  assert (Hl : heap w_s1 !! 0%nat = Some s1_new) by (vm_compute; reflexivity).
  split; [exact Hk |]. split; [exact Hl |].
  destruct (sequential_appends clock0 uuid0
              [("hi", "hello"); ("bye", "goodbye")] w_s1 "s1" 0%nat s1_new
              Hk Hl)
    as (results & w' & s' & new & Hrun & _ & _ & Hl' & Hh & Hturns & _ & Hlen
        & _).
  exists results, w', s'. split; [exact Hrun |]. split; [exact Hl' |].
  split; [by rewrite Hh, <- Hturns | by apply Hlen].
Defined.

Lemma createSession_existing_witness :
  wf w_hi
  ∧ sessions w_hi !! "s1" = Some 0%nat
  ∧ fst (createSession clock0 uuid0 (Some "s1") w_hi) = Normal 1%nat
  ∧ heap (snd (createSession clock0 uuid0 (Some "s1") w_hi)) !! 0%nat
    = heap w_hi !! 0%nat
  ∧ size (sessions (snd (createSession clock0 uuid0 (Some "s1") w_hi)))
    = size (sessions w_hi).
Proof.
  assert (Hk : sessions w_hi !! "s1" = Some 0%nat) by (vm_compute; reflexivity).
  split; [exact wf_w_hi |]. split; [exact Hk |].
  destruct (createSession_existing_replaces clock0 uuid0 w_hi "s1" 0%nat
              wf_w_hi Hk) as (Hrun & _ & _ & _ & Hold & Hsize & _).
  rewrite Hrun. split; [reflexivity |]. split; [exact Hold | exact Hsize].
Defined.

Lemma cleanup_evicts_witness :
  wf w_two
  ∧ ∃ res w',
      cleanupInactiveSessions clock0 (Some 1500) w_two = (Normal res, w')
      ∧ sessions w' !! "s1" = None
      ∧ sessions w' !! "s2" = Some 1%nat
      ∧ CleanupResult.cleaned res = 1%nat.
Proof.
  split; [exact wf_w_two |].
  destruct (cleanup_evicts_exactly_the_stale clock0 w_two (Some 1500) wf_w_two)
    as (res & w' & Hrun & Hper & _ & Hcleaned & Hremaining).
  assert (H1 : sessions w_two !! "s1" = Some 0%nat) by (vm_compute; reflexivity).
  assert (H2 : sessions w_two !! "s2" = Some 1%nat) by (vm_compute; reflexivity).
  assert (L1 : heap w_two !! 0%nat = Some s1_hi) by (vm_compute; reflexivity).
  assert (L2 : heap w_two !! 1%nat = Some s2_new) by (vm_compute; reflexivity).
  destruct (Hper "s1" 0%nat s1_hi H1 L1) as [Hold _].
  destruct (Hper "s2" 1%nat s2_new H2 L2) as [_ Hyoung].
  exists res, w'. split; [exact Hrun |].
  split; [apply Hold; vm_compute; reflexivity |].
  split; [apply Hyoung; vm_compute; discriminate |].
  rewrite Hcleaned. vm_compute. reflexivity.
Defined.

Lemma cleanup_counts_witness :
  wf w_two
  ∧ ∃ res w',
      cleanupInactiveSessions clock0 None w_two = (Normal res, w')
      ∧ (CleanupResult.cleaned res + CleanupResult.remaining res = 2)%nat
      ∧ heap w' = heap w_two.
Proof.
  split; [exact wf_w_two |].
  destruct (cleanup_counts_add_up clock0 w_two None wf_w_two)
    as (res & w' & Hrun & Hsum & Hheap & _).
  exists res, w'. split; [exact Hrun |]. split; [| exact Hheap].
  rewrite Hsum. vm_compute. reflexivity.
Defined.

Lemma concurrent_appends_witness :
  sessions w_s1 !! "s1" = Some 0%nat
  ∧ heap w_s1 !! 0%nat = Some s1_new
  ∧ (3 ≤ resumptions A [A; B; B; A; B; A])%nat
  ∧ (3 ≤ resumptions B [A; B; B; A; B; A])%nat
  ∧ ∃ s',
      heap (world (run clock0 uuid0 (Text "hello") (Text "hey")
                     [A; B; B; A; B; A]
                     (mkConfig (Called "s1" "hi") (Called "s1" "yo") w_s1)))
        !! 0%nat = Some s'
      ∧ length (Session.history s') = 2%nat.
Proof.
  assert (Hk : sessions w_s1 !! "s1" = Some 0%nat) by (vm_compute; reflexivity).
  assert (Hl : heap w_s1 !! 0%nat = Some s1_new) by (vm_compute; reflexivity).
  assert (HA : (3 ≤ resumptions A [A; B; B; A; B; A])%nat) by (simpl; lia).
  assert (HB : (3 ≤ resumptions B [A; B; B; A; B; A])%nat) by (simpl; lia).
  split; [exact Hk |]. split; [exact Hl |]. split; [exact HA |].
  split; [exact HB |].
  destruct (concurrent_appends_both_recorded clock0 uuid0 w_s1 "s1" 0%nat
              s1_new "hi" "hello" "yo" "hey" [A; B; B; A; B; A] Hk Hl HA HB)
    as (rA & rB & s' & new & _ & _ & _ & _ & _ & Hl' & _ & _ & Hlen).
  exists s'. split; [exact Hl' | exact Hlen].
Defined.

(** ** The life of a session *)

Ltac run_js :=
  unfold post_session, post_message, get_history, delete_session, put_clear,
    get_sessions, post_cleanup, get_health,
    sendMessage, getSessionHistory, deleteSession, clearSessionHistory,
    createSession, task_step, getSession, try_catch, bind, ret, throw,
    Map_get, Map_set, Map_delete, Map_size, Map_entries, newDate, newUuid,
    startChat, alloc, with_heap, with_sessions; simpl.

Section Lifecycle.

Variable clock : nat → Z.
Variable uuidv4 : nat → string.

Lemma createSession_truthy w id :
  truthy id = true →
  createSession clock uuidv4 (Some id) w =
    (Normal (length (heap w)),
     mkWorld (<[id := length (heap w)]> (sessions w))
       (heap w ++ [Session.mk id (chats w) []
                     (clock (dates w)) (clock (S (dates w)))])
       (S (S (dates w))) (uuids w) (S (chats w))).
Proof. intros Hid. run_js. by rewrite Hid. Qed.

Lemma createSession_uuid w sessionId :
  given sessionId = false →
  createSession clock uuidv4 sessionId w =
    (Normal (length (heap w)),
     mkWorld (<[uuidv4 (uuids w) := length (heap w)]> (sessions w))
       (heap w ++ [Session.mk (uuidv4 (uuids w)) (chats w) []
                     (clock (dates w)) (clock (S (dates w)))])
       (S (S (dates w))) (S (uuids w)) (S (chats w))).
Proof.
  intros Hid. destruct sessionId as [id |]; simpl in Hid.
  - run_js. by rewrite Hid.
  - by run_js.
Qed.

Lemma registered_new m h s k d u c :
  registered (mkWorld (<[k := length h]> m) (h ++ [s]) d u c) k = Some s.
Proof.
  unfold registered. simpl. rewrite lookup_insert_eq.
  by rewrite lookup_app_r, Nat.sub_diag by lia.
Qed.

(** X1. [createSession] with an id that is a non-empty string and is not in
    the Map adds one entry: the id now refers to a new session with an empty
    history, whose createdAt and lastActivity are two successive readings of
    the clock; the Map is larger by one, its other entries are the same, and
    no session object that existed is changed. *)
Theorem createSession_fresh w id :
  truthy id = true →
  sessions w !! id = None →
  ∃ session w',
    createSession clock uuidv4 (Some id) w = (Normal session, w')
    ∧ registered w' id
      = Some (Session.mk id (chats w) []
                (clock (dates w)) (clock (S (dates w))))
    ∧ size (sessions w') = S (size (sessions w))
    ∧ (∀ k, k ≠ id → sessions w' !! k = sessions w !! k)
    ∧ (∀ l s, heap w !! l = Some s → heap w' !! l = Some s).
Proof.
  intros Hid Hk. eexists _, _. split; [by apply createSession_truthy |].
  split; [apply registered_new |]. simpl.
  split; [by apply map_size_insert_None |].
  split; [intros k Hne; by apply lookup_insert_ne |].
  intros l s Hl. by apply lookup_app_l_Some.
Qed.

(** X2. [createSession] called without an id, or with the empty string, takes
    the next uuid as the id: the two calls are the same call, the new session
    is registered under that uuid and carries it as its id, and one uuid was
    consumed. *)
Theorem createSession_without_id w sessionId :
  given sessionId = false →
  createSession clock uuidv4 sessionId w = createSession clock uuidv4 None w
  ∧ ∃ session w',
      createSession clock uuidv4 sessionId w = (Normal session, w')
      ∧ registered w' (uuidv4 (uuids w))
        = Some (Session.mk (uuidv4 (uuids w)) (chats w) []
                  (clock (dates w)) (clock (S (dates w))))
      ∧ uuids w' = S (uuids w)
      ∧ (∀ k, k ≠ uuidv4 (uuids w) → sessions w' !! k = sessions w !! k).
Proof.
  intros Hid. rewrite (createSession_uuid w sessionId Hid).
  split; [by rewrite (createSession_uuid w None) |].
  eexists _, _. split; [done |]. split; [apply registered_new |]. simpl.
  split; [done |]. intros k Hne. by apply lookup_insert_ne.
Qed.

(** A field of the registered object is written: the other registered
    sessions are the objects they were. *)
Lemma registered_insert_ne w sessionId l s s' k d u c :
  wf w →
  sessions w !! sessionId = Some l →
  heap w !! l = Some s →
  k ≠ sessionId →
  registered (mkWorld (sessions w) (<[l := s']> (heap w)) d u c) k
  = registered w k.
Proof.
  intros Hwf Hsid Hl Hne. unfold registered. simpl.
  destruct (sessions w !! k) as [l' |] eqn:Hk; [| done].
  apply list_lookup_insert_ne. intros <-.
  destruct (wf_live w Hwf k l Hk) as [s0 Hs0].
  pose proof (wf_key w Hwf k l s0 Hk Hs0).
  pose proof (wf_key w Hwf sessionId l s0 Hsid Hs0). congruence.
Qed.

Lemma registered_insert_eq w sessionId l s s' d u c :
  sessions w !! sessionId = Some l →
  heap w !! l = Some s →
  registered (mkWorld (sessions w) (<[l := s']> (heap w)) d u c) sessionId
  = Some s'.
Proof.
  intros Hsid Hl. unfold registered. simpl. rewrite Hsid.
  apply list_lookup_insert_eq. by eapply lookup_lt_Some.
Qed.

(** [sendMessage], whatever the provider answers: the world it leaves. *)
Lemma sendMessage_world w r sessionId message :
  wf w →
  snd (sendMessage clock uuidv4 r sessionId message w) = w
  ∨ ∃ l s text,
      r = Text text
      ∧ sessions w !! sessionId = Some l ∧ heap w !! l = Some s
      ∧ sendMessage clock uuidv4 r sessionId message w =
          (Normal (SendResult.mk text (uuidv4 (uuids w)) (Session.id s)),
           mkWorld (sessions w)
             (<[l := appended (uuidv4 (uuids w)) message text
                      (clock (dates w)) (clock (S (dates w))) s]> (heap w))
             (S (S (dates w))) (S (uuids w)) (chats w)).
Proof.
  intros Hwf. destruct (sessions w !! sessionId) as [l |] eqn:Hk.
  - destruct r as [text | e].
    + destruct (wf_live w Hwf _ _ Hk) as [s Hl]. right.
      exists l, s, text. split; [done |]. split; [done |]. split; [done |].
      by apply sendMessage_ok.
    + left. by rewrite (sendMessage_failure clock uuidv4 w e _ _ l Hk).
  - left. by rewrite sendMessage_unknown.
Qed.

(** X3. A successful [sendMessage] answers the id it was called with, the
    text of the provider and the id of the exchange it recorded, and that
    exchange (the message, the text, the time read) is the last of the
    history of the registered session. *)
Theorem sendMessage_answers w sessionId message text l :
  wf w →
  sessions w !! sessionId = Some l →
  ∃ result w' s',
    sendMessage clock uuidv4 (Text text) sessionId message w
    = (Normal result, w')
    ∧ SendResult.sessionId result = sessionId
    ∧ SendResult.response result = text
    ∧ registered w' sessionId = Some s'
    ∧ last (Session.history s')
      = Some (Exchange.mk (SendResult.exchangeId result) message text
                (clock (dates w))).
Proof.
  intros Hwf Hk. destruct (wf_live w Hwf _ _ Hk) as [s Hl].
  eexists _, _, _. split; [by apply sendMessage_ok |]. simpl.
  split; [by eapply wf_key |]. split; [done |].
  split; [by eapply registered_insert_eq |]. simpl. apply last_snoc.
Qed.

(** X4. [sendMessage] touches one session only: whatever the id and the
    answer of the provider, the Map is the same afterwards, every session
    registered under another id is unchanged, and the session itself keeps
    its id, its createdAt and its chat. *)
Theorem sendMessage_frame w r sessionId message :
  wf w →
  let w' := snd (sendMessage clock uuidv4 r sessionId message w) in
  sessions w' = sessions w
  ∧ (∀ k, k ≠ sessionId → registered w' k = registered w k)
  ∧ (∀ s, registered w sessionId = Some s →
       ∃ s', registered w' sessionId = Some s'
             ∧ Session.id s' = Session.id s
             ∧ Session.createdAt s' = Session.createdAt s
             ∧ Session.chatSession s' = Session.chatSession s).
Proof.
  intros Hwf w'. subst w'.
  destruct (sendMessage_world w r sessionId message Hwf)
    as [-> | (l & s & text & -> & Hk & Hl & ->)].
  - split; [done |]. split; [done |]. intros s Hs. by exists s.
  - simpl. split; [done |].
    split; [intros k Hne; by eapply registered_insert_ne |].
    intros s0 Hs0. unfold registered in Hs0. rewrite Hk, Hl in Hs0.
    injection Hs0 as <-. eexists. split; [by eapply registered_insert_eq |].
    done.
Qed.

(** X5. [clearSessionHistory] touches one session only: the Map is the same
    afterwards and every session registered under another id is unchanged,
    whether the id was registered or not. *)
Theorem clearSessionHistory_frame w sessionId :
  wf w →
  let w' := snd (clearSessionHistory clock sessionId w) in
  sessions w' = sessions w
  ∧ ∀ k, k ≠ sessionId → registered w' k = registered w k.
Proof.
  intros Hwf w'. subst w'. destruct (sessions w !! sessionId) as [l |] eqn:Hk.
  - destruct (wf_live w Hwf _ _ Hk) as [s Hl].
    rewrite (clearSessionHistory_ok clock w sessionId l s Hk Hl). simpl.
    split; [done |]. intros k Hne. by eapply registered_insert_ne.
  - by rewrite clearSessionHistory_unknown.
Qed.

Lemma sendMessages_run inputs : ∀ w sessionId l s,
  sessions w !! sessionId = Some l →
  heap w !! l = Some s →
  ∃ results w' s',
    sendMessages clock uuidv4 sessionId inputs w = (Normal results, w')
    ∧ map SendResult.response results = inputs.*2
    ∧ sessions w' = sessions w
    ∧ heap w' !! l = Some s'
    ∧ Session.id s' = Session.id s
    ∧ Session.createdAt s' = Session.createdAt s
    ∧ turns (Session.history s') = (turns (Session.history s) ++ inputs)%list.
Proof.
  induction inputs as [| [message text] rest IH]; intros w sessionId l s Hk Hl.
  - exists [], w, s. rewrite app_nil_r. done.
  - pose proof (sendMessage_ok clock uuidv4 w sessionId message text l s Hk Hl)
      as Hsend.
    set (s1 := appended (uuidv4 (uuids w)) message text
                 (clock (dates w)) (clock (S (dates w))) s) in *.
    set (w1 := mkWorld (sessions w) (<[l := s1]> (heap w))
                 (S (S (dates w))) (S (uuids w)) (chats w)) in *.
    destruct (IH w1 sessionId l s1 Hk)
      as (rs & w' & s' & Hrun & Hrs & Hm & Hl' & Hid & Hc & Ht).
    { simpl. apply list_lookup_insert_eq. by eapply lookup_lt_Some. }
    eexists (_ :: rs), w', s'. split.
    { simpl. unfold bind at 1. rewrite Hsend. unfold bind at 1.
      rewrite Hrun. done. }
    simpl. rewrite Hrs. split; [done |]. split; [done |]. split; [done |].
    split; [done |]. split; [done |]. rewrite Ht. subst s1. simpl.
    unfold turns. by rewrite map_app, <- app_assoc.
Qed.

(** X6. A session is created under a non-empty id and [inputs] are sent to
    it one after the other, the provider answering each.  Every call
    answers the text of the provider, and [getSessionHistory] then returns
    the id, the createdAt of the creation, as many messages as were sent and
    the messages with their answers in the order they were sent.  This holds
    whatever was registered before, also under the same id. *)
Theorem create_send_read w id inputs :
  truthy id = true →
  ∃ results w' h,
    sendMessages clock uuidv4 id inputs
      (snd (createSession clock uuidv4 (Some id) w)) = (Normal results, w')
    ∧ map SendResult.response results = inputs.*2
    ∧ getSessionHistory id w' = (Normal h, w')
    ∧ HistoryResult.sessionId h = id
    ∧ HistoryResult.createdAt h = clock (dates w)
    ∧ HistoryResult.messageCount h = length inputs
    ∧ turns (HistoryResult.history h) = inputs.
Proof.
  intros Hid. rewrite (createSession_truthy w id Hid). simpl.
  edestruct (sendMessages_run inputs) as (rs & w' & s' & Hrun & Hrs & Hm & Hl'
                                          & Hi & Hc & Ht);
    [| | exists rs, w'; eexists; split; [exact Hrun |]].
  { simpl. apply lookup_insert_eq. }
  { simpl. by rewrite lookup_app_r, Nat.sub_diag by lia. }
  split; [done |]. simpl in *. split.
  { run_js. rewrite Hm, lookup_insert_eq. simpl. unfold deref.
    by rewrite Hl'. }
  simpl. split; [done |]. split; [done |]. split; [| done].
  rewrite <- (length_map (λ e, (Exchange.user e, Exchange.assistant e))).
  fold (turns (Session.history s')). by rewrite Ht.
Qed.

(** X7. Once [deleteSession] has removed an id, every method that takes the
    id fails with its own "Session not found" message and changes nothing,
    also a second [deleteSession]; the session objects are not touched by the
    deletion; and a [createSession] with the id starts from an empty
    history. *)
Theorem deleted_session_is_gone w sessionId l r message :
  sessions w !! sessionId = Some l →
  let w' := snd (deleteSession clock sessionId w) in
  heap w' = heap w
  ∧ sendMessage clock uuidv4 r sessionId message w'
    = (Throw "Failed to send message: Session not found", w')
  ∧ getSessionHistory sessionId w'
    = (Throw "Failed to get session history: Session not found", w')
  ∧ clearSessionHistory clock sessionId w'
    = (Throw "Failed to clear session history: Session not found", w')
  ∧ deleteSession clock sessionId w'
    = (Throw "Failed to delete session: Session not found", w')
  ∧ (truthy sessionId = true →
     ∃ s, registered (snd (createSession clock uuidv4 (Some sessionId) w'))
            sessionId = Some s
          ∧ Session.history s = []).
Proof.
  intros Hk w'.
  assert (Hw' : w' = mkWorld (delete sessionId (sessions w)) (heap w)
                       (S (dates w)) (uuids w) (chats w)).
  { subst w'. run_js. by rewrite Hk. }
  assert (Hgone : sessions w' !! sessionId = None).
  { rewrite Hw'. simpl. apply lookup_delete_eq. }
  split; [by rewrite Hw' |]. split; [by apply sendMessage_unknown |].
  split; [run_js; by rewrite Hgone |].
  split; [by apply clearSessionHistory_unknown |].
  split; [run_js; by rewrite Hgone |].
  intros Hid. rewrite (createSession_truthy w' sessionId Hid).
  eexists. split; [apply registered_new | done].
Qed.

Lemma summarize_live values : ∀ w,
  (∀ l, l ∈ values → is_Some (heap w !! l)) →
  ∃ objects,
    Forall2 (λ (l : loc) s, heap w !! l = Some s) values objects
    ∧ summarize values w = (Normal (map summary objects), w).
Proof.
  induction values as [| l values IH]; intros w Hlive.
  - exists []. split; [constructor | done].
  - destruct (Hlive l) as [s Hl]; [by left |].
    destruct (IH w) as (objects & Hall & Hrun).
    { intros l' H. apply Hlive. by right. }
    exists (s :: objects). split; [by constructor |].
    simpl. unfold bind at 1, deref. rewrite Hl. unfold bind at 1.
    by rewrite Hrun.
Qed.

Lemma getAllSessions_run w :
  wf w →
  ∃ objects,
    Forall2 (λ (l : loc) s, heap w !! l = Some s) (map_to_list (sessions w)).*2 objects
    ∧ getAllSessions w
      = (Normal (SessionsResult.mk (map summary objects)
                   (length (map summary objects))), w).
Proof.
  intros Hwf.
  destruct (summarize_live (map_to_list (sessions w)).*2 w)
    as (objects & Hall & Hrun).
  { intros l Hl. apply list_elem_of_fmap in Hl as [[k l'] [-> Hl]].
    apply elem_of_map_to_list in Hl. by apply (wf_live w Hwf k). }
  exists objects. split; [done |].
  unfold getAllSessions, bind, Map_values. by rewrite Hrun.
Qed.

(** X8. [getAllSessions] changes nothing and, in a well-formed world, does
    not throw.  Its count is the size of the Map and the length of its list;
    the list holds the summary (id, createdAt, lastActivity, number of
    exchanges) of every registered session and nothing else, and no id
    occurs twice in it. *)
Theorem getAllSessions_lists_the_registry w :
  wf w →
  ∃ result,
    getAllSessions w = (Normal result, w)
    ∧ SessionsResult.count result = size (sessions w)
    ∧ SessionsResult.count result = length (SessionsResult.sessions result)
    ∧ (∀ x, x ∈ SessionsResult.sessions result
            ↔ ∃ k s, registered w k = Some s ∧ x = summary s)
    ∧ NoDup (map Summary.id (SessionsResult.sessions result)).
Proof.
  intros Hwf. destruct (getAllSessions_run w Hwf) as (objects & Hall & Hrun).
  eexists. split; [exact Hrun |].
  simpl. apply Forall2_fmap_l in Hall.
  assert (Hlen : length objects = size (sessions w)).
  { rewrite <- (Forall2_length _ _ _ Hall). apply length_map_to_list. }
  split; [by rewrite length_map |]. split; [done |]. split.
  - intros x. rewrite list_elem_of_fmap. split.
    + intros [s [-> Hs]]. apply list_elem_of_lookup in Hs as [i Hi].
      destruct (Forall2_lookup_r _ _ _ _ _ Hall Hi) as ([k l] & Hkl & Hl).
      apply list_elem_of_lookup_2, elem_of_map_to_list in Hkl.
      exists k, s. split; [| done]. unfold registered. by rewrite Hkl.
    + intros (k & s & Hreg & ->). exists s. split; [done |].
      unfold registered in Hreg.
      destruct (sessions w !! k) as [l |] eqn:Hk; [| done].
      apply elem_of_map_to_list, list_elem_of_lookup in Hk as [i Hi].
      destruct (Forall2_lookup_l _ _ _ _ _ Hall Hi) as (s' & Hs' & Hl).
      simpl in Hl. assert (s' = s) as -> by congruence.
      by eapply list_elem_of_lookup_2.
  - assert (Hids : map Summary.id (map summary objects)
                   = (map_to_list (sessions w)).*1).
    { clear Hlen Hrun. revert Hall.
      generalize (λ k l, proj1 (elem_of_map_to_list (sessions w) k l)).
      generalize (map_to_list (sessions w)). intros es Hes Hall.
      induction Hall as [| [k l] s es objects Hl Hall IH]; [done |].
      simpl. f_equal.
      - eapply (wf_key w Hwf k l s); [| done]. apply Hes. by left.
      - apply IH. intros k' l' H. apply Hes. by right. }
    rewrite Hids. apply NoDup_fst_map_to_list.
Qed.

(** *** What a request can change *)

Lemma getSessionHistory_found w sessionId l s :
  sessions w !! sessionId = Some l →
  heap w !! l = Some s →
  getSessionHistory sessionId w = (Normal (HistoryResult.mk (Session.id s)
    (Session.createdAt s) (Session.lastActivity s)
    (length (Session.history s)) (Session.history s)), w).
Proof.
  intros Hk Hl. run_js. rewrite Hk. simpl. unfold deref. by rewrite Hl.
Qed.

Lemma getSessionHistory_pure sessionId w :
  snd (getSessionHistory sessionId w) = w.
Proof.
  run_js. destruct (sessions w !! sessionId) as [l |]; simpl; [| done].
  unfold deref. by destruct (heap w !! l).
Qed.

Lemma registered_alloc_ne w id s k d u c :
  wf w →
  k ≠ id →
  registered (mkWorld (<[id := length (heap w)]> (sessions w))
                (heap w ++ [s]) d u c) k
  = registered w k.
Proof.
  intros Hwf Hne. unfold registered. simpl. rewrite lookup_insert_ne by done.
  destruct (sessions w !! k) as [l |] eqn:Hk; [| done].
  destruct (wf_live w Hwf k l Hk) as [s0 Hs0].
  rewrite Hs0. by apply lookup_app_l_Some.
Qed.

(** The world after one request, by cases: the objects are untouched (and
    the Map is the same, or lost the id deleted, or lost ids to the
    eviction); or one object was added, registered by [createSession]; or
    one registered object was written, by [sendMessage] or by
    [clearSessionHistory]. *)
Lemma serve_world w c :
  wf w →
  let w' := serve clock uuidv4 w c in
  (dates w ≤ dates w')%nat
  ∧ ((heap w' = heap w
      ∧ (sessions w' = sessions w
         ∨ (∃ sessionId, c = DeleteSession sessionId
                         ∧ sessions w' = delete sessionId (sessions w))
         ∨ (∃ maxAge, c = CleanupInactiveSessions maxAge
                      ∧ ∀ k l, sessions w' !! k = Some l →
                               sessions w !! k = Some l)))
     ∨ (∃ sessionId id,
          c = CreateSession sessionId
          ∧ sessions w' = <[id := length (heap w)]> (sessions w)
          ∧ heap w' = (heap w ++ [Session.mk id (chats w) []
                                    (clock (dates w)) (clock (S (dates w)))])%list
          ∧ dates w' = S (S (dates w)))
     ∨ (∃ sessionId l s s',
          sessions w !! sessionId = Some l
          ∧ heap w !! l = Some s
          ∧ sessions w' = sessions w
          ∧ heap w' = <[l := s']> (heap w)
          ∧ dates w' = S (S (dates w))
          ∧ ((∃ message text,
                c = SendMessage (Text text) sessionId message
                ∧ s' = appended (uuidv4 (uuids w)) message text
                         (clock (dates w)) (clock (S (dates w))) s)
             ∨ (c = ClearSessionHistory sessionId
                ∧ s' = Session.mk (Session.id s) (chats w) []
                         (Session.createdAt s) (clock (dates w)))))).
Proof.
  intros Hwf w'. subst w'.
  destruct c as [sid | r sid m | sid | sid | sid | | maxAge]; simpl.
  - destruct (given sid) eqn:Hg.
    + destruct sid as [id |]; [| done]. simpl in Hg.
      rewrite (createSession_truthy w id Hg). simpl.
      split; [lia |]. right. left. by exists (Some id), id.
    + rewrite (createSession_uuid w sid Hg). simpl.
      split; [lia |]. right. left. by exists sid, (uuidv4 (uuids w)).
  - destruct (sendMessage_world w r sid m Hwf)
      as [-> | (l & s & text & -> & Hk & Hl & ->)].
    + split; [lia |]. left. split; [done |]. by left.
    + simpl. split; [lia |]. right. right. exists sid, l, s. eexists.
      split; [done |]. split; [done |]. split; [done |]. split; [done |].
      split; [done |]. left. by exists m, text.
  - rewrite getSessionHistory_pure. split; [lia |]. left.
    split; [done |]. by left.
  - run_js. destruct (sessions w !! sid) as [l |] eqn:Hk; simpl.
    + split; [lia |]. left. split; [done |]. right. left. by exists sid.
    + split; [lia |]. left. split; [done |]. by left.
  - destruct (sessions w !! sid) as [l |] eqn:Hk.
    + destruct (wf_live w Hwf _ _ Hk) as [s Hl].
      rewrite (clearSessionHistory_ok clock w sid l s Hk Hl). simpl.
      split; [lia |]. right. right. exists sid, l, s. eexists.
      split; [done |]. split; [done |]. split; [done |]. split; [done |].
      split; [done |]. by right.
    + rewrite clearSessionHistory_unknown by done. simpl. split; [lia |]. left.
      split; [done |]. by left.
  - rewrite getAllSessions_pure. split; [lia |]. left.
    split; [done |]. by left.
  - destruct (cleanup_spec clock w maxAge Hwf) as (n & -> & _). simpl.
    split; [lia |]. left. split; [done |]. right. right. exists maxAge.
    split; [done |]. intros k l H.
    by apply map_lookup_filter_Some in H as [H _].
Qed.

(** X9. An id leaves the Map only by a [deleteSession] of that id or by the
    eviction, and enters it only by a [createSession]: no other request
    removes a session, and none creates one on the way. *)
Theorem ids_come_and_go w c k :
  wf w →
  (is_Some (sessions w !! k) →
   sessions (serve clock uuidv4 w c) !! k = None →
   c = DeleteSession k ∨ ∃ maxAge, c = CleanupInactiveSessions maxAge)
  ∧ (sessions w !! k = None →
     is_Some (sessions (serve clock uuidv4 w c) !! k) →
     ∃ sessionId, c = CreateSession sessionId).
Proof.
  intros Hwf.
  destruct (serve_world w c Hwf)
    as [_ [[_ [Hs | [(sid & -> & Hs) | (maxAge & -> & Hs)]]]
          | [(sid & id & -> & Hs & _)
            | (sid & l & s & s' & _ & _ & Hs & _)]]].
  - rewrite Hs. split; [intros [l Hl] H | intros H [l Hl]]; congruence.
  - rewrite Hs. split.
    + intros Hin Hout. left. f_equal.
      destruct (decide (k = sid)) as [| Hne]; [done |].
      rewrite lookup_delete_ne in Hout by done. destruct Hin. congruence.
    + intros Hout [l Hin]. apply lookup_delete_Some in Hin as [_ Hin].
      congruence.
  - split; [intros _ _; right; by exists maxAge |].
    intros Hout [l Hin]. apply Hs in Hin. congruence.
  - split; [| intros _ _; by exists sid]. rewrite Hs.
    intros [l Hin] Hout. destruct (decide (k = id)) as [-> | Hne].
    + by rewrite lookup_insert_eq in Hout.
    + rewrite lookup_insert_ne in Hout by done. congruence.
  - rewrite Hs. split; [intros [l' Hl] H | intros H [l' Hl]]; congruence.
Qed.

(** A session registered before and after a request: it is the same, or
    the new one of a [createSession], or the old one with the exchange of a
    [sendMessage], or the old one emptied by a [clearSessionHistory]. *)
Lemma registered_after w c k s s' :
  wf w →
  registered w k = Some s →
  registered (serve clock uuidv4 w c) k = Some s' →
  s' = s
  ∨ (∃ sessionId,
       c = CreateSession sessionId
       ∧ s' = Session.mk k (chats w) []
                (clock (dates w)) (clock (S (dates w))))
  ∨ (∃ message text,
       c = SendMessage (Text text) k message
       ∧ s' = appended (uuidv4 (uuids w)) message text
                (clock (dates w)) (clock (S (dates w))) s)
  ∨ (c = ClearSessionHistory k
     ∧ s' = Session.mk (Session.id s) (chats w) []
              (Session.createdAt s) (clock (dates w))).
Proof.
  intros Hwf Hreg Hreg'.
  destruct (serve_world w c Hwf)
    as [_ [[Hh Hs]
          | [(sid & id & -> & Hs & Hh & Hd)
            | (sid & l & s0 & s1 & Hk & Hl & Hs & Hh & Hd & Hc)]]].
  - left. unfold registered in *. rewrite Hh in Hreg'.
    destruct (sessions (serve clock uuidv4 w c) !! k) as [l |] eqn:Hk';
      [| done].
    assert (Hk : sessions w !! k = Some l).
    { destruct Hs as [Hs | [(sid & -> & Hs) | (maxAge & -> & Hs)]].
      - by rewrite <- Hs.
      - rewrite Hs in Hk'. by apply lookup_delete_Some in Hk' as [_ Hk'].
      - by apply Hs. }
    rewrite Hk in Hreg. congruence.
  - revert Hreg'. generalize (serve clock uuidv4 w (CreateSession sid)) Hs Hh.
    intros [m' h' d' u' c'] Hm' Hh'. simpl in *. subst m' h'.
    destruct (decide (k = id)) as [-> | Hne].
    + rewrite registered_new. intros [= <-]. right. left. by exists sid.
    + rewrite registered_alloc_ne by done. intros Heq. left. congruence.
  - revert Hreg'. generalize (serve clock uuidv4 w c) Hs Hh.
    intros [m' h' d' u' c'] Hm' Hh'. simpl in *. subst m' h'.
    destruct (decide (k = sid)) as [-> | Hne].
    + rewrite (registered_insert_eq w sid l s0) by done. intros [= <-].
      assert (s0 = s) as ->.
      { unfold registered in Hreg. rewrite Hk, Hl in Hreg. congruence. }
      destruct Hc as [(message & text & -> & ->) | [-> ->]].
      * right. right. left. by exists message, text.
      * right. right. right. done.
    + rewrite (registered_insert_ne w sid l s0) by done. intros Heq.
      left. congruence.
Qed.

(** X10. The history of a registered session is append-only.  If an id is
    registered before and after a request, the session still carries that
    id, and its history is the same, or is the same followed by the one
    exchange of a [sendMessage] to that id, or is empty after a
    [clearSessionHistory] of that id or a [createSession]: no request
    removes, reorders or rewrites single exchanges. *)
Theorem history_is_append_only w c k s s' :
  wf w →
  registered w k = Some s →
  registered (serve clock uuidv4 w c) k = Some s' →
  Session.id s' = Session.id s
  ∧ (Session.history s' = Session.history s
     ∨ (∃ e message text,
          c = SendMessage (Text text) k message
          ∧ Session.history s' = (Session.history s ++ [e])%list
          ∧ Exchange.user e = message ∧ Exchange.assistant e = text)
     ∨ (Session.history s' = []
        ∧ (c = ClearSessionHistory k
           ∨ ∃ sessionId, c = CreateSession sessionId))).
Proof.
  intros Hwf Hreg Hreg'.
  assert (Hidk : Session.id s = k).
  { unfold registered in Hreg.
    destruct (sessions w !! k) as [l |] eqn:Hk; [| done].
    by eapply wf_key. }
  destruct (registered_after w c k s s' Hwf Hreg Hreg')
    as [-> | [(sid & -> & ->) | [(message & text & -> & ->) | [-> ->]]]];
    simpl.
  - auto.
  - split; [done |]. right. right. split; [done |]. right. by exists sid.
  - split; [done |]. right. left. eexists _, message, text. done.
  - split; [done |]. right. right. split; [done |]. by left.
Qed.

End Lifecycle.

(** *** Time stamps *)

Section Time.

Variable clock : nat → Z.
Variable uuidv4 : nat → string.

(** The clock does not go back, and a uuid is not the empty string. *)
Hypothesis clock_mono : ∀ n m, (n ≤ m)%nat → (clock n ≤ clock m)%Z.
Hypothesis uuid_truthy : ∀ n, truthy (uuidv4 n) = true.

Lemma wf_serve w c : wf w → wf (serve clock uuidv4 w c).
Proof.
  intros Hwf. destruct c; simpl.
  - by apply wf_createSession.
  - by apply wf_sendMessage.
  - by apply wf_getSessionHistory.
  - by apply wf_deleteSession.
  - by apply wf_clearSessionHistory.
  - by rewrite getAllSessions_pure.
  - by apply wf_cleanupInactiveSessions.
Qed.

Lemma in_order_appended eid message text d s :
  in_order s →
  (∀ d', (d ≤ d')%nat → (Session.lastActivity s ≤ clock d')%Z) →
  in_order (appended eid message text (clock d) (clock (S d)) s).
Proof.
  intros [Hc Hb Hs] Hpast.
  pose proof (Hpast d (Nat.le_refl d)) as Hd.
  pose proof (clock_mono d (S d) (Nat.le_succ_diag_r d)) as Hd'.
  split; simpl.
  - lia.
  - intros i e Hi. apply lookup_app_Some in Hi as [Hi | [_ Hi]].
    + destruct (Hb i e Hi). lia.
    + apply list_lookup_singleton_Some in Hi as [_ <-]. simpl. lia.
  - intros i j ei ej Hij Hi Hj.
    apply lookup_app_Some in Hi as [Hi | [Hlen Hi]];
      apply lookup_app_Some in Hj as [Hj | [Hlen' Hj]].
    + by eapply Hs.
    + apply list_lookup_singleton_Some in Hj as [_ <-]. simpl.
      destruct (Hb i ei Hi). lia.
    + apply lookup_lt_Some in Hj. lia.
    + apply list_lookup_singleton_Some in Hi as [_ <-].
      apply list_lookup_singleton_Some in Hj as [_ <-]. done.
Qed.

Lemma timed_serve w c :
  wf w → timed clock w → timed clock (serve clock uuidv4 w c).
Proof.
  intros Hwf Ht.
  destruct (serve_world clock uuidv4 w c Hwf)
    as [Hdates [[Hh _]
          | [(sid & id & -> & _ & Hh & Hd)
            | (sid & l & s & s' & Hk & Hl & _ & Hh & Hd & Hc)]]];
    intros l0 s0; rewrite Hh.
  - intros H0. destruct (Ht l0 s0 H0) as [Ho Hp]. split; [done |].
    intros d Hle. apply Hp. lia.
  - intros H0. apply lookup_app_Some in H0 as [H0 | [_ H0]].
    + destruct (Ht l0 s0 H0) as [Ho Hp]. split; [done |].
      intros d Hle. apply Hp. lia.
    + apply list_lookup_singleton_Some in H0 as [_ <-]. rewrite Hd. split.
      * split; simpl; [apply clock_mono; lia | done | done].
      * simpl. intros d Hle. apply clock_mono. lia.
  - intros H0. apply list_lookup_insert_Some in H0 as [(<- & <- & _) | [_ H0]].
    + destruct (Ht l s Hl) as [Ho Hp]. rewrite Hd.
      destruct Hc as [(message & text & -> & ->) | [-> ->]].
      * split; [by apply in_order_appended |].
        simpl. intros d Hle. apply clock_mono. lia.
      * pose proof (created_first s Ho).
        pose proof (Hp (dates w) (Nat.le_refl _)).
        split; [split; simpl; [lia | done | done] |].
        simpl. intros d Hle. apply clock_mono. lia.
    + destruct (Ht l0 s0 H0) as [Ho Hp]. split; [done |].
      intros d Hle. apply Hp. lia.
Qed.

Lemma served_wf_timed calls :
  wf (served clock uuidv4 calls) ∧ timed clock (served clock uuidv4 calls).
Proof.
  unfold served. assert (Hinit : wf init ∧ timed clock init).
  { split; [apply wf_init | by intros l s H]. }
  revert Hinit. generalize init.
  induction calls as [| c calls IH]; intros w [Hwf Ht]; simpl; [done |].
  apply IH. split; [by apply wf_serve | by apply timed_serve].
Qed.

End Time.

(** X11. When the clock does not go back, the time stamps of every
    registered session are in order in every world the service reaches:
    createdAt is not later than lastActivity, the time stamp of every
    exchange lies between the two, and the exchanges of the history are in
    the order of their time stamps. *)
Theorem session_times_in_order clock uuidv4 calls k s :
  (∀ n m, (n ≤ m)%nat → (clock n ≤ clock m)%Z) →
  (∀ n, truthy (uuidv4 n) = true) →
  registered (served clock uuidv4 calls) k = Some s →
  in_order s.
Proof.
  intros Hmono Huuid Hreg.
  destruct (served_wf_timed clock uuidv4 Hmono Huuid calls) as [_ Ht].
  unfold registered in Hreg.
  destruct (sessions (served clock uuidv4 calls) !! k) as [l |]; [| done].
  by destruct (Ht l s Hreg).
Qed.

(** X12. When the clock does not go back, no request moves the lastActivity
    or the createdAt of a registered id backwards: if the id is registered
    before and after a request, both are at least what they were, and
    createdAt is what it was unless the request is a [createSession]. *)
Theorem activity_never_goes_back clock uuidv4 calls c k s s' :
  (∀ n m, (n ≤ m)%nat → (clock n ≤ clock m)%Z) →
  (∀ n, truthy (uuidv4 n) = true) →
  let w := served clock uuidv4 calls in
  registered w k = Some s →
  registered (serve clock uuidv4 w c) k = Some s' →
  (Session.lastActivity s ≤ Session.lastActivity s')%Z
  ∧ (Session.createdAt s ≤ Session.createdAt s')%Z
  ∧ ((∀ sessionId, c ≠ CreateSession sessionId) →
     Session.createdAt s' = Session.createdAt s).
Proof.
  intros Hmono Huuid w Hreg Hreg'.
  destruct (served_wf_timed clock uuidv4 Hmono Huuid calls) as [Hwf Ht].
  fold w in Hwf, Ht.
  assert (Hs : in_order s
               ∧ ∀ d, (dates w ≤ d)%nat → (Session.lastActivity s ≤ clock d)%Z).
  { unfold registered in Hreg.
    destruct (sessions w !! k) as [l |]; [| done]. by apply (Ht l). }
  destruct Hs as [Ho Hp]. pose proof (created_first s Ho) as Hc.
  pose proof (Hp (dates w) (Nat.le_refl _)) as Hd.
  pose proof (Hp (S (dates w)) (Nat.le_succ_diag_r _)) as Hd'.
  destruct (registered_after clock uuidv4 w c k s s' Hwf Hreg Hreg')
    as [-> | [(sid & -> & ->) | [(message & text & -> & ->) | [-> ->]]]];
    simpl.
  - split; [lia |]. split; [lia | done].
  - split; [lia |]. split; [lia |]. intros Hne. by destruct (Hne sid).
  - split; [lia |]. split; [lia | done].
  - split; [lia |]. split; [lia | done].
Qed.

(** X13. In every world the service reaches, the Map and the session
    objects agree: an id in the Map is not the empty string, it refers to a
    session object whose id field is that id, and no session object is
    registered under two ids. *)
Theorem registry_is_consistent clock uuidv4 calls k l :
  (∀ n, truthy (uuidv4 n) = true) →
  let w := served clock uuidv4 calls in
  sessions w !! k = Some l →
  k ≠ ""
  ∧ (∃ s, heap w !! l = Some s ∧ Session.id s = k)
  ∧ (∀ k', sessions w !! k' = Some l → k' = k).
Proof.
  intros Huuid w Hk.
  pose proof (wf_served clock uuidv4 calls Huuid) as Hwf. fold w in Hwf.
  destruct (wf_live w Hwf k l Hk) as [s Hl].
  pose proof (wf_key w Hwf k l s Hk Hl) as Hid.
  split; [| split].
  - intros ->. by pose proof (wf_truthy w Hwf "" l Hk).
  - by exists s.
  - intros k' Hk'. pose proof (wf_key w Hwf k' l s Hk' Hl). congruence.
Qed.

(** ** The routes *)


Section Routes.

Variable clock : nat → Z.
Variable uuidv4 : nat → string.

(** The message that [sendMessage] rethrows holds "Session not found" when
    the message of the provider's error does, and only then. *)
Lemma includes_send_failure e :
  includes ("Failed to send message: " ++ e) "Session not found"
  = includes e "Session not found".
Proof. reflexivity. Qed.





(** X15. The message route, given a sessionId and a message.  An id that is
    not registered is answered 404.  A failure of the provider is answered
    500, unless the message of its error contains "Session not found": then
    it is answered 404, as if the session were missing.  In both cases the
    Map and the session objects stay as they were and the body carries the
    rethrown message.  Otherwise the answer is 200, with the text of the
    provider and the id that was sent. *)
Theorem post_message_status w r sessionId message :
  wf w →
  truthy sessionId = true →
  truthy message = true →
  ∃ resp w',
    post_message clock uuidv4 r (Some sessionId) (Some message) w
    = (Normal resp, w')
    ∧ match sessions w !! sessionId, r with
      | None, _ =>
          resp = mkResponse 404
                   (Failed "Failed to send message: Session not found"
                      (clock (dates w)))
          ∧ sessions w' = sessions w ∧ heap w' = heap w
      | Some _, Failure e =>
          resp = mkResponse
                   (if includes e "Session not found" then 404 else 500)%nat
                   (Failed ("Failed to send message: " ++ e) (clock (dates w)))
          ∧ sessions w' = sessions w ∧ heap w' = heap w
      | Some _, Text text =>
          ∃ result,
            resp = mkResponse 200
                     (MessageSent result (clock (S (S (dates w)))))
            ∧ SendResult.response result = text
            ∧ SendResult.sessionId result = sessionId
      end.
Proof.
  intros Hwf Hs Hm. unfold post_message, try_catch. simpl. rewrite Hs, Hm.
  simpl. unfold bind at 1.
  destruct (sessions w !! sessionId) as [l |] eqn:Hk.
  - destruct r as [text | e].
    + destruct (wf_live w Hwf _ _ Hk) as [s Hl].
      rewrite (sendMessage_ok clock uuidv4 w sessionId message text l s Hk Hl).
      eexists _, _. split; [run_js; done |]. eexists. split; [done |].
      simpl. split; [done |]. by eapply wf_key.
    + rewrite (sendMessage_failure clock uuidv4 w e sessionId message l Hk).
      eexists _, _. split; [run_js; done |]. simpl.
      unfold statusCode. rewrite includes_send_failure. done.
  - rewrite sendMessage_unknown by done.
    eexists _, _. split; [run_js; done |]. destruct r; done.
Qed.

(** X16. The three routes that take the id in the path (history, delete,
    clear) answer 200 when the id is registered and 404 when it is not, and
    nothing else; when they answer 404 the Map and the session objects stay
    as they were. *)
Theorem routes_by_id_answer_200_or_404 w sessionId :
  wf w →
  ∃ rh wh rd wd rc wc,
    get_history clock sessionId w = (Normal rh, wh)
    ∧ delete_session clock sessionId w = (Normal rd, wd)
    ∧ put_clear clock sessionId w = (Normal rc, wc)
    ∧ (is_Some (sessions w !! sessionId) →
       status rh = 200%nat ∧ status rd = 200%nat ∧ status rc = 200%nat)
    ∧ (sessions w !! sessionId = None →
       status rh = 404%nat ∧ status rd = 404%nat ∧ status rc = 404%nat
       ∧ sessions wh = sessions w ∧ heap wh = heap w
       ∧ sessions wd = sessions w ∧ heap wd = heap w
       ∧ sessions wc = sessions w ∧ heap wc = heap w).
Proof.
  intros Hwf. destruct (sessions w !! sessionId) as [l |] eqn:Hk.
  - destruct (wf_live w Hwf _ _ Hk) as [s Hl].
    eexists _, _, _, _, _, _.
    split; [unfold get_history, try_catch, bind at 1;
            by rewrite (getSessionHistory_found w sessionId l s Hk Hl) |].
    split; [run_js; by rewrite Hk |].
    split; [unfold put_clear, try_catch, bind at 1;
            by rewrite (clearSessionHistory_ok clock w sessionId l s Hk Hl) |].
    split; [done |]. intros H. discriminate H.
  - eexists _, _, _, _, _, _.
    split; [run_js; by rewrite Hk |]. split; [run_js; by rewrite Hk |].
    split; [run_js; by rewrite Hk |]. simpl.
    split; [by intros [? ?] | done].
Qed.



End Routes.

(** ** A send in flight while other requests are served *)

Section InFlight.

Variable clock : nat → Z.
Variable uuidv4 : nat → string.
Hypothesis uuid_truthy : ∀ n, truthy (uuidv4 n) = true.

(** A session object stays in the store, with its id, whatever is served. *)
Lemma serve_keeps_object w c (l : loc) s :
  wf w →
  heap w !! l = Some s →
  ∃ s', heap (serve clock uuidv4 w c) !! l = Some s'
        ∧ Session.id s' = Session.id s.
Proof.
  intros Hwf Hl.
  destruct (serve_world clock uuidv4 w c Hwf)
    as [_ [[Hh _]
          | [(sid & id & -> & _ & Hh & _)
            | (sid & l0 & s0 & s1 & _ & Hl0 & _ & Hh & _ & Hc)]]];
    rewrite Hh.
  - by exists s.
  - exists s. split; [by apply lookup_app_l_Some | done].
  - destruct (decide (l = l0)) as [-> | Hne].
    + exists s1. split.
      * apply list_lookup_insert_eq. by eapply lookup_lt_Some.
      * assert (s0 = s) as -> by congruence.
        by destruct Hc as [(message & text & _ & ->) | [_ ->]].
    + exists s. split; [| done]. by rewrite list_lookup_insert_ne.
Qed.

Lemma served_keeps_object calls : ∀ w (l : loc) s,
  wf w →
  heap w !! l = Some s →
  wf (foldl (serve clock uuidv4) w calls)
  ∧ ∃ s', heap (foldl (serve clock uuidv4) w calls) !! l = Some s'
          ∧ Session.id s' = Session.id s.
Proof.
  induction calls as [| c calls IH]; intros w l s Hwf Hl; simpl.
  - split; [done |]. by exists s.
  - destruct (serve_keeps_object w c l s Hwf Hl) as (s1 & Hl1 & Hid1).
    destruct (IH (serve clock uuidv4 w c) l s1) as (Hwf' & s' & Hl' & Hid');
      [by apply wf_serve | done |].
    split; [done |]. exists s'. split; [done | congruence].
Qed.

(** The call took the object [l] when it started; it writes to that object
    when it is resumed, as the object is by then. *)
Lemma send_around_run w sessionId message text calls l :
  wf w →
  sessions w !! sessionId = Some l →
  let w1 := foldl (serve clock uuidv4) w calls in
  ∃ s1,
    wf w1
    ∧ heap w1 !! l = Some s1
    ∧ Session.id s1 = sessionId
    ∧ send_around clock uuidv4 (Text text) sessionId message calls w
      = (Settled (Normal (SendResult.mk text (uuidv4 (uuids w1)) sessionId)),
         mkWorld (sessions w1)
           (<[l := appended (uuidv4 (uuids w1)) message text
                    (clock (dates w1)) (clock (S (dates w1))) s1]> (heap w1))
           (S (S (dates w1))) (S (uuids w1)) (chats w1)).
Proof.
  intros Hwf Hk w1. destruct (wf_live w Hwf _ _ Hk) as [s Hl].
  destruct (served_keeps_object calls w l s Hwf Hl) as (Hwf1 & s1 & Hl1 & Hid).
  fold w1 in Hwf1, Hl1. exists s1. split; [done |]. split; [done |].
  assert (Hid1 : Session.id s1 = sessionId).
  { rewrite Hid. exact (wf_key w Hwf sessionId l s Hk Hl). }
  split; [done |]. unfold send_around.
  assert (task_step clock uuidv4 (Text text) (Called sessionId message) w
          = (AwaitSend l message, w)) as ->.
  { run_js. by rewrite Hk. }
  cbv zeta. fold w1.
  change (task_step clock uuidv4 (Text text) (AwaitSend l message) w1)
    with (AwaitResponse l message text, w1).
  cbv beta iota.
  rewrite (resume_ok clock uuidv4 (Text text) w1 l s1 message text Hl1).
  by rewrite Hid1.
Qed.

(** X19. A [sendMessage] is awaiting the provider while other requests are
    served, and the id still refers to the same session object when the
    provider answers.  The call resolves with the text and the id, and its
    exchange is appended to the session as the requests left it: after a
    [clearSessionHistory], to the emptied history.  No other registered
    session is changed by the resumption. *)
Theorem inflight_send_reaches_the_session
    w sessionId message text calls l :
  wf w →
  sessions w !! sessionId = Some l →
  let w1 := foldl (serve clock uuidv4) w calls in
  sessions w1 !! sessionId = Some l →
  ∃ result w' s1,
    send_around clock uuidv4 (Text text) sessionId message calls w
    = (Settled (Normal result), w')
    ∧ SendResult.response result = text
    ∧ SendResult.sessionId result = sessionId
    ∧ registered w1 sessionId = Some s1
    ∧ registered w' sessionId
      = Some (appended (SendResult.exchangeId result) message text
                (clock (dates w1)) (clock (S (dates w1))) s1)
    ∧ (∀ k, k ≠ sessionId → registered w' k = registered w1 k).
Proof.
  intros Hwf Hk w1 Hk1.
  destruct (send_around_run w sessionId message text calls l Hwf Hk)
    as (s1 & Hwf1 & Hl1 & Hid & Hrun).
  fold w1 in Hwf1, Hl1, Hrun. eexists _, _, s1. split; [exact Hrun |].
  simpl. split; [done |]. split; [done |].
  split; [unfold registered; by rewrite Hk1 |].
  split; [by eapply registered_insert_eq |].
  intros k Hne. by eapply registered_insert_ne.
Qed.

(** X20. A [sendMessage] is awaiting the provider while other requests are
    served, and the id no longer refers to the session object the call
    started with: the session was deleted, evicted or replaced by a
    [createSession].  The call still resolves with the text and the id, as
    if it had succeeded, but the Map and every registered session are what
    they were before the resumption: the exchange is not in the registry. *)
Theorem inflight_send_is_lost w sessionId message text calls l :
  wf w →
  sessions w !! sessionId = Some l →
  let w1 := foldl (serve clock uuidv4) w calls in
  sessions w1 !! sessionId ≠ Some l →
  ∃ result w',
    send_around clock uuidv4 (Text text) sessionId message calls w
    = (Settled (Normal result), w')
    ∧ SendResult.response result = text
    ∧ SendResult.sessionId result = sessionId
    ∧ sessions w' = sessions w1
    ∧ ∀ k, registered w' k = registered w1 k.
Proof.
  intros Hwf Hk w1 Hk1.
  destruct (send_around_run w sessionId message text calls l Hwf Hk)
    as (s1 & Hwf1 & Hl1 & Hid & Hrun).
  fold w1 in Hwf1, Hl1, Hrun. eexists _, _. split; [exact Hrun |].
  simpl. split; [done |]. split; [done |]. split; [done |].
  intros k. unfold registered. simpl.
  destruct (sessions w1 !! k) as [l' |] eqn:Hk'; [| done].
  apply list_lookup_insert_ne. intros <-.
  pose proof (wf_key w1 Hwf1 k l s1 Hk' Hl1). congruence.
Qed.

(** X21. A [sendMessage] that fails changes nothing, also when other
    requests are served while it is in flight: the world it leaves is the
    world those requests made.  This holds when the provider fails, and when
    the id is not registered at the moment of the call: the id is looked up
    once, at the call, so a session created under that id during the await
    does not rescue the call. *)
Theorem inflight_failure_changes_nothing w r sessionId message calls :
  sessions w !! sessionId = None ∨ (∃ e, r = Failure e) →
  ∃ error,
    send_around clock uuidv4 r sessionId message calls w
    = (Settled (Throw error), foldl (serve clock uuidv4) w calls)
    ∧ (sessions w !! sessionId = None →
       error = "Failed to send message: Session not found")
    ∧ (∀ e, is_Some (sessions w !! sessionId) → r = Failure e →
       error = "Failed to send message: " ++ e).
Proof.
  intros H. unfold send_around.
  destruct (sessions w !! sessionId) as [l |] eqn:Hk.
  - destruct H as [H | [e ->]]; [done |].
    exists ("Failed to send message: " ++ e).
    assert (task_step clock uuidv4 (Failure e) (Called sessionId message) w
            = (AwaitSend l message, w)) as ->.
    { run_js. by rewrite Hk. }
    simpl. split; [done |]. split; [done |]. by intros e' _ [= <-].
  - exists "Failed to send message: Session not found".
    assert (task_step clock uuidv4 r (Called sessionId message) w
            = (Settled (Throw "Failed to send message: Session not found"), w))
      as ->.
    { run_js. by rewrite Hk. }
    simpl. split; [done |]. split; [done |]. by intros e [? ?].
Qed.

End InFlight.

(** ** The further theorems at the concrete runs *)

Lemma clock0_mono n m : (n ≤ m)%nat → (clock0 n ≤ clock0 m)%Z.
Proof. unfold clock0. lia. Qed.

Lemma createSession_fresh_witness :
  truthy "s2" = true
  ∧ sessions w_hi !! "s2" = None
  ∧ ∃ session w',
      createSession clock0 uuid0 (Some "s2") w_hi = (Normal session, w')
      ∧ registered w' "s2" = Some s2_new
      ∧ size (sessions w') = 2%nat.
Proof.
  assert (Hk : sessions w_hi !! "s2" = None) by (vm_compute; reflexivity).
  split; [reflexivity |]. split; [exact Hk |].
  destruct (createSession_fresh clock0 uuid0 w_hi "s2" eq_refl Hk)
    as (session & w' & Hrun & Hreg & Hsize & _).
  exists session, w'. split; [exact Hrun |].
  split; [rewrite Hreg | rewrite Hsize]; vm_compute; reflexivity.
Defined.

Lemma createSession_without_id_witness :
  given (Some "") = false
  ∧ createSession clock0 uuid0 (Some "") w_hi
    = createSession clock0 uuid0 None w_hi
  ∧ ∃ session w',
      createSession clock0 uuid0 (Some "") w_hi = (Normal session, w')
      ∧ registered w' "uuid-1" = Some (Session.mk "uuid-1" 1 [] 4000 5000).
Proof.
  split; [reflexivity |].
  destruct (createSession_without_id clock0 uuid0 w_hi (Some "") eq_refl)
    as (Hsame & session & w' & Hrun & Hreg & _).
  split; [exact Hsame |]. exists session, w'. split; [exact Hrun |].
  exact Hreg.
Defined.

Lemma sendMessage_answers_witness :
  wf w_hi
  ∧ sessions w_hi !! "s1" = Some 0%nat
  ∧ ∃ result w',
      sendMessage clock0 uuid0 (Text "fine") "s1" "how are you" w_hi
      = (Normal result, w')
      ∧ SendResult.sessionId result = "s1"
      ∧ SendResult.response result = "fine".
Proof.
  assert (Hk : sessions w_hi !! "s1" = Some 0%nat) by (vm_compute; reflexivity).
  split; [exact wf_w_hi |]. split; [exact Hk |].
  destruct (sendMessage_answers clock0 uuid0 w_hi "s1" "how are you" "fine"
              0%nat wf_w_hi Hk)
    as (result & w' & s' & Hrun & Hid & Htext & _).
  exists result, w'. split; [exact Hrun |]. split; [exact Hid | exact Htext].
Defined.

Lemma sendMessage_frame_witness :
  wf w_two
  ∧ sessions (snd (sendMessage clock0 uuid0 (Text "fine") "s1" "again" w_two))
    = sessions w_two
  ∧ registered
      (snd (sendMessage clock0 uuid0 (Text "fine") "s1" "again" w_two)) "s2"
    = registered w_two "s2".
Proof.
  split; [exact wf_w_two |].
  destruct (sendMessage_frame clock0 uuid0 w_two (Text "fine") "s1" "again"
              wf_w_two) as (Hmap & Hother & _).
  split; [exact Hmap |]. apply Hother. discriminate.
Defined.

Lemma clearSessionHistory_frame_witness :
  wf w_two
  ∧ sessions (snd (clearSessionHistory clock0 "s1" w_two)) = sessions w_two
  ∧ registered (snd (clearSessionHistory clock0 "s1" w_two)) "s2"
    = registered w_two "s2".
Proof.
  split; [exact wf_w_two |].
  destruct (clearSessionHistory_frame clock0 w_two "s1" wf_w_two)
    as (Hmap & Hother).
  split; [exact Hmap |]. apply Hother. discriminate.
Defined.

Lemma create_send_read_witness :
  truthy "s1" = true
  ∧ ∃ results w' h,
      sendMessages clock0 uuid0 "s1" [("hi", "hello"); ("bye", "goodbye")]
        (snd (createSession clock0 uuid0 (Some "s1") w_hi))
      = (Normal results, w')
      ∧ getSessionHistory "s1" w' = (Normal h, w')
      ∧ HistoryResult.messageCount h = 2%nat
      ∧ turns (HistoryResult.history h) = [("hi", "hello"); ("bye", "goodbye")].
Proof.
  split; [reflexivity |].
  destruct (create_send_read clock0 uuid0 w_hi "s1"
              [("hi", "hello"); ("bye", "goodbye")] eq_refl)
    as (results & w' & h & Hrun & _ & Hread & _ & _ & Hcount & Hturns).
  exists results, w', h. split; [exact Hrun |]. split; [exact Hread |].
  split; [exact Hcount | exact Hturns].
Defined.

Lemma deleted_session_witness :
  sessions w_hi !! "s1" = Some 0%nat
  ∧ sendMessage clock0 uuid0 (Text "hello") "s1" "hi"
      (snd (deleteSession clock0 "s1" w_hi))
    = (Throw "Failed to send message: Session not found",
       snd (deleteSession clock0 "s1" w_hi))
  ∧ deleteSession clock0 "s1" (snd (deleteSession clock0 "s1" w_hi))
    = (Throw "Failed to delete session: Session not found",
       snd (deleteSession clock0 "s1" w_hi)).
Proof.
  assert (Hk : sessions w_hi !! "s1" = Some 0%nat) by (vm_compute; reflexivity).
  split; [exact Hk |].
  destruct (deleted_session_is_gone clock0 uuid0 w_hi "s1" 0%nat
              (Text "hello") "hi" Hk) as (_ & Hsend & _ & _ & Hdelete & _).
  split; [exact Hsend | exact Hdelete].
Defined.

Lemma getAllSessions_witness :
  wf w_two
  ∧ ∃ result,
      getAllSessions w_two = (Normal result, w_two)
      ∧ SessionsResult.count result = 2%nat
      ∧ summary s1_hi ∈ SessionsResult.sessions result.
Proof.
  split; [exact wf_w_two |].
  destruct (getAllSessions_lists_the_registry w_two wf_w_two)
    as (result & Hrun & Hcount & _ & Hin & _).
  exists result. split; [exact Hrun |].
  split; [rewrite Hcount; vm_compute; reflexivity |].
  apply Hin. exists "s1", s1_hi. split; [vm_compute; reflexivity | reflexivity].
Defined.

Lemma ids_come_and_go_witness :
  wf w_hi
  ∧ is_Some (sessions w_hi !! "s1")
  ∧ sessions (serve clock0 uuid0 w_hi (DeleteSession "s1")) !! "s1" = None
  ∧ sessions w_hi !! "s2" = None
  ∧ is_Some (sessions (serve clock0 uuid0 w_hi (CreateSession (Some "s2")))
               !! "s2")
  ∧ (DeleteSession "s1" = DeleteSession "s1"
     ∨ ∃ maxAge, DeleteSession "s1" = CleanupInactiveSessions maxAge)
  ∧ ∃ sessionId, CreateSession (Some "s2") = CreateSession sessionId.
Proof.
  assert (H1 : is_Some (sessions w_hi !! "s1"))
    by (exists 0%nat; vm_compute; reflexivity).
  assert (H2 : sessions (serve clock0 uuid0 w_hi (DeleteSession "s1")) !! "s1"
               = None) by (vm_compute; reflexivity).
  assert (H3 : sessions w_hi !! "s2" = None) by (vm_compute; reflexivity).
  assert (H4 : is_Some (sessions (serve clock0 uuid0 w_hi
                                    (CreateSession (Some "s2"))) !! "s2"))
    by (exists 1%nat; vm_compute; reflexivity).
  split; [exact wf_w_hi |]. split; [exact H1 |]. split; [exact H2 |].
  split; [exact H3 |]. split; [exact H4 |]. split.
  - destruct (ids_come_and_go clock0 uuid0 w_hi (DeleteSession "s1") "s1"
                wf_w_hi) as [Hgo _]. exact (Hgo H1 H2).
  - destruct (ids_come_and_go clock0 uuid0 w_hi (CreateSession (Some "s2"))
                "s2" wf_w_hi) as [_ Hcome]. exact (Hcome H3 H4).
Defined.

Lemma history_is_append_only_witness :
  wf w_hi
  ∧ registered w_hi "s1" = Some s1_hi
  ∧ registered (serve clock0 uuid0 w_hi (SendMessage (Text "fine") "s1" "again"))
      "s1"
    = Some (Session.mk "s1" 0
              [Exchange.mk "uuid-0" "hi" "hello" 2000;
               Exchange.mk "uuid-1" "again" "fine" 4000] 0 5000)
  ∧ ∃ e, [Exchange.mk "uuid-0" "hi" "hello" 2000;
          Exchange.mk "uuid-1" "again" "fine" 4000]
         = (Session.history s1_hi ++ [e])%list.
Proof.
  assert (H1 : registered w_hi "s1" = Some s1_hi) by (vm_compute; reflexivity).
  assert (H2 : registered (serve clock0 uuid0 w_hi
                             (SendMessage (Text "fine") "s1" "again")) "s1"
               = Some (Session.mk "s1" 0
                         [Exchange.mk "uuid-0" "hi" "hello" 2000;
                          Exchange.mk "uuid-1" "again" "fine" 4000] 0 5000))
    by (vm_compute; reflexivity).
  split; [exact wf_w_hi |]. split; [exact H1 |]. split; [exact H2 |].
  destruct (history_is_append_only clock0 uuid0 w_hi _ "s1" _ _ wf_w_hi H1 H2)
    as [_ [Hsame | [(e & message & text & _ & Hh & _) | [Hnil _]]]].
  - discriminate Hsame.
  - exists e. exact Hh.
  - discriminate Hnil.
Defined.

Lemma session_times_witness :
  (∀ n m, (n ≤ m)%nat → (clock0 n ≤ clock0 m)%Z)
  ∧ (∀ n, truthy (uuid0 n) = true)
  ∧ registered
      (served clock0 uuid0
         [CreateSession (Some "s1"); SendMessage (Text "hello") "s1" "hi"])
      "s1" = Some s1_hi
  ∧ in_order s1_hi.
Proof.
  assert (H : registered
                (served clock0 uuid0
                   [CreateSession (Some "s1");
                    SendMessage (Text "hello") "s1" "hi"]) "s1" = Some s1_hi)
    by (vm_compute; reflexivity).
  split; [exact clock0_mono |]. split; [exact uuid0_truthy |].
  split; [exact H |].
  exact (session_times_in_order clock0 uuid0 _ "s1" s1_hi
           clock0_mono uuid0_truthy H).
Defined.

Lemma activity_never_goes_back_witness :
  (∀ n m, (n ≤ m)%nat → (clock0 n ≤ clock0 m)%Z)
  ∧ (∀ n, truthy (uuid0 n) = true)
  ∧ registered (served clock0 uuid0 [CreateSession (Some "s1")]) "s1"
    = Some s1_new
  ∧ registered
      (serve clock0 uuid0 (served clock0 uuid0 [CreateSession (Some "s1")])
         (SendMessage (Text "hello") "s1" "hi")) "s1" = Some s1_hi
  ∧ (Session.lastActivity s1_new ≤ Session.lastActivity s1_hi)%Z
  ∧ Session.createdAt s1_hi = Session.createdAt s1_new.
Proof.
  assert (H1 : registered (served clock0 uuid0 [CreateSession (Some "s1")])
                 "s1" = Some s1_new) by (vm_compute; reflexivity).
  assert (H2 : registered
                 (serve clock0 uuid0
                    (served clock0 uuid0 [CreateSession (Some "s1")])
                    (SendMessage (Text "hello") "s1" "hi")) "s1" = Some s1_hi)
    by (vm_compute; reflexivity).
  split; [exact clock0_mono |]. split; [exact uuid0_truthy |].
  split; [exact H1 |]. split; [exact H2 |].
  destruct (activity_never_goes_back clock0 uuid0 _ _ "s1" s1_new s1_hi
              clock0_mono uuid0_truthy H1 H2) as (Hact & _ & Hcreated).
  split; [exact Hact |]. apply Hcreated. discriminate.
Defined.

Lemma registry_is_consistent_witness :
  (∀ n, truthy (uuid0 n) = true)
  ∧ sessions (served clock0 uuid0 [CreateSession None; CreateSession (Some "s1")])
      !! "uuid-0" = Some 0%nat
  ∧ ∃ s, heap (served clock0 uuid0
                 [CreateSession None; CreateSession (Some "s1")]) !! 0%nat
         = Some s
         ∧ Session.id s = "uuid-0".
Proof.
  assert (H : sessions (served clock0 uuid0
                          [CreateSession None; CreateSession (Some "s1")])
                !! "uuid-0" = Some 0%nat) by (vm_compute; reflexivity).
  split; [exact uuid0_truthy |]. split; [exact H |].
  destruct (registry_is_consistent clock0 uuid0 _ "uuid-0" 0%nat
              uuid0_truthy H) as (_ & Hobj & _).
  exact Hobj.
Defined.


Lemma post_message_status_witness :
  wf w_hi
  ∧ truthy "s1" = true
  ∧ truthy "hi" = true
  ∧ ∃ w',
      post_message clock0 uuid0 (Failure "upstream: Session not found")
        (Some "s1") (Some "hi") w_hi
      = (Normal (mkResponse 404
                   (Failed "Failed to send message: upstream: Session not found"
                      4000)), w').
Proof.
  split; [exact wf_w_hi |]. split; [reflexivity |]. split; [reflexivity |].
  destruct (post_message_status clock0 uuid0 w_hi
              (Failure "upstream: Session not found") "s1" "hi"
              wf_w_hi eq_refl eq_refl) as (resp & w' & Hrun & Hst).
  vm_compute in Hst. destruct Hst as (-> & _).
  exists w'. exact Hrun.
Defined.

Lemma routes_by_id_witness :
  wf w_hi
  ∧ is_Some (sessions w_hi !! "s1")
  ∧ sessions w_hi !! "s9" = None
  ∧ (∃ rh wh, get_history clock0 "s1" w_hi = (Normal rh, wh)
              ∧ status rh = 200%nat)
  ∧ (∃ rd wd, delete_session clock0 "s9" w_hi = (Normal rd, wd)
              ∧ status rd = 404%nat).
Proof.
  assert (H1 : is_Some (sessions w_hi !! "s1"))
    by (exists 0%nat; vm_compute; reflexivity).
  assert (H9 : sessions w_hi !! "s9" = None) by (vm_compute; reflexivity).
  split; [exact wf_w_hi |]. split; [exact H1 |]. split; [exact H9 |]. split.
  - destruct (routes_by_id_answer_200_or_404 clock0 w_hi "s1" wf_w_hi)
      as (rh & wh & rd & wd & rc & wc & Hrun & _ & _ & Hin & _).
    exists rh, wh. split; [exact Hrun |]. by destruct (Hin H1).
  - destruct (routes_by_id_answer_200_or_404 clock0 w_hi "s9" wf_w_hi)
      as (rh & wh & rd & wd & rc & wc & _ & Hrun & _ & _ & Hout).
    exists rd, wd. split; [exact Hrun |]. by destruct (Hout H9) as (_ & ? & _).
Defined.


Lemma inflight_send_reaches_witness :
  (∀ n, truthy (uuid0 n) = true)
  ∧ wf w_hi
  ∧ sessions w_hi !! "s1" = Some 0%nat
  ∧ sessions (foldl (serve clock0 uuid0) w_hi [ClearSessionHistory "s1"])
      !! "s1" = Some 0%nat
  ∧ ∃ result w' s',
      send_around clock0 uuid0 (Text "fine") "s1" "again"
        [ClearSessionHistory "s1"] w_hi = (Settled (Normal result), w')
      ∧ registered w' "s1" = Some s'
      ∧ turns (Session.history s') = [("again", "fine")].
Proof.
  assert (Hk : sessions w_hi !! "s1" = Some 0%nat) by (vm_compute; reflexivity).
  assert (Hk1 : sessions (foldl (serve clock0 uuid0) w_hi
                            [ClearSessionHistory "s1"]) !! "s1" = Some 0%nat)
    by (vm_compute; reflexivity).
  split; [exact uuid0_truthy |]. split; [exact wf_w_hi |].
  split; [exact Hk |]. split; [exact Hk1 |].
  destruct (inflight_send_reaches_the_session clock0 uuid0 uuid0_truthy w_hi
              "s1" "again" "fine" [ClearSessionHistory "s1"] 0%nat
              wf_w_hi Hk Hk1)
    as (result & w' & s1 & Hrun & _ & _ & Hreg1 & Hreg & _).
  exists result, w'. eexists. split; [exact Hrun |]. split; [exact Hreg |].
  vm_compute in Hreg1. injection Hreg1 as <-. reflexivity.
Defined.

Lemma inflight_send_is_lost_witness :
  (∀ n, truthy (uuid0 n) = true)
  ∧ wf w_hi
  ∧ sessions w_hi !! "s1" = Some 0%nat
  ∧ sessions (foldl (serve clock0 uuid0) w_hi [CreateSession (Some "s1")])
      !! "s1" ≠ Some 0%nat
  ∧ ∃ result w',
      send_around clock0 uuid0 (Text "fine") "s1" "again"
        [CreateSession (Some "s1")] w_hi = (Settled (Normal result), w')
      ∧ registered w' "s1" = Some (Session.mk "s1" 1 [] 4000 5000).
Proof.
  assert (Hk : sessions w_hi !! "s1" = Some 0%nat) by (vm_compute; reflexivity).
  assert (Hk1 : sessions (foldl (serve clock0 uuid0) w_hi
                            [CreateSession (Some "s1")]) !! "s1"
                ≠ Some 0%nat) by (vm_compute; discriminate).
  split; [exact uuid0_truthy |]. split; [exact wf_w_hi |].
  split; [exact Hk |]. split; [exact Hk1 |].
  destruct (inflight_send_is_lost clock0 uuid0 uuid0_truthy w_hi
              "s1" "again" "fine" [CreateSession (Some "s1")] 0%nat
              wf_w_hi Hk Hk1)
    as (result & w' & Hrun & _ & _ & _ & Hreg).
  exists result, w'. split; [exact Hrun |]. rewrite Hreg.
  vm_compute. reflexivity.
Defined.

Lemma inflight_failure_witness :
  (sessions w_hi !! "s2" = None ∨ ∃ e, Text "hello" = Failure e)
  ∧ send_around clock0 uuid0 (Text "hello") "s2" "hi"
      [CreateSession (Some "s2")] w_hi
    = (Settled (Throw "Failed to send message: Session not found"), w_two).
Proof.
  assert (H : sessions w_hi !! "s2" = None ∨ ∃ e, Text "hello" = Failure e)
    by (left; vm_compute; reflexivity).
  split; [exact H |].
  destruct (inflight_failure_changes_nothing clock0 uuid0 w_hi (Text "hello")
              "s2" "hi" [CreateSession (Some "s2")] H)
    as (error & Hrun & Hmissing & _).
  rewrite Hrun, Hmissing by (vm_compute; reflexivity). reflexivity.
Defined.
